(** * brazilian-utils: validators, formatters and generators for Brazilian
      identifiers, embedded from the TypeScript sources.

    A JavaScript string is a [string]; the numbers the library computes with
    are integers far below 2^53, so a JavaScript number is an [option Z]
    whose [None] is NaN.  Arrays that are only read are lists; the reference
    tables, which the library reads through shared arrays, live in an
    explicit store (module [Tables]). *)

From Stdlib Require Import String Ascii List ZArith Lia Bool DecimalString.
Import ListNotations.

Set Implicit Arguments.

Open Scope string_scope.
Open Scope Z_scope.

(** ** JavaScript values and built-ins used by the library *)

Module Js.

(** Exceptions the embedded code can raise. *)
Inductive JsError := TypeError | RangeError.

Inductive result (A : Type) : Type :=
| Ok (a : A)
| Throw (e : JsError).
Arguments Ok {A} a.
Arguments Throw {A} e.

Definition bind {A B} (r : result A) (k : A -> result B) : result B :=
  match r with
  | Ok a => k a
  | Throw e => Throw e
  end.

(** The values a caller can pass where the signature says [string], as
    far as this embedding goes: undefined, null, a boolean, an integral
    number, a string, and the plain object without properties, [{}].
    Other objects are not among them: a [String] object, an object that
    carries methods such as [replace] or [split] of its own, an object
    whose conversion to a string throws. *)
Inductive JsValue :=
| VUndefined
| VNull
| VBoolean (b : bool)
| VNumber (n : Z)
| VString (s : string)
| VObject.

(** [!!v] *)
Definition truthy (v : JsValue) : bool :=
  match v with
  | VUndefined | VNull => false
  | VBoolean b => b
  | VNumber n => negb (n =? 0)
  | VString s => negb (String.eqb s "")
  | VObject => true
  end.

(** [typeof v === 'string'] *)
Definition isString (v : JsValue) : bool :=
  match v with
  | VString _ => true
  | _ => false
  end.

(** A number: [None] is NaN. *)
Definition number := option Z.

Definition NaN : number := None.

Definition lift2 (f : Z -> Z -> Z) (a b : number) : number :=
  match a, b with
  | Some x, Some y => Some (f x y)
  | _, _ => None
  end.

Definition add := lift2 Z.add.
Definition sub := lift2 Z.sub.
Definition mul := lift2 Z.mul.

(** [a % b]: the remainder has the sign of the dividend; [x % 0] is NaN. *)
Definition rem (a b : number) : number :=
  match a, b with
  | Some x, Some y => if y =? 0 then None else Some (Z.rem x y)
  | _, _ => None
  end.

(** Comparisons with NaN are false. *)
Definition lt (a b : number) : bool :=
  match a, b with
  | Some x, Some y => x <? y
  | _, _ => false
  end.

Definition gt (a b : number) : bool := lt b a.

(** [a === b] on numbers. *)
Definition numEq (a b : number) : bool :=
  match a, b with
  | Some x, Some y => x =? y
  | _, _ => false
  end.

(** [String(n)] of an integer. *)
Definition intToString (z : Z) : string := NilZero.string_of_int (Z.to_int z).

Definition numberToString (n : number) : string :=
  match n with
  | Some z => intToString z
  | None => "NaN"
  end.

(** [String(v)] *)
Definition toString (v : JsValue) : string :=
  match v with
  | VUndefined => "undefined"
  | VNull => "null"
  | VBoolean true => "true"
  | VBoolean false => "false"
  | VNumber n => intToString n
  | VString s => s
  | VObject => "[object Object]"
  end.

Definition isDigit (c : ascii) : bool :=
  let n := nat_of_ascii c in (48 <=? n)%nat && (n <=? 57)%nat.

Definition digitValue (c : ascii) : Z := Z.of_nat (nat_of_ascii c) - 48.

Fixpoint allDigits (s : string) : bool :=
  match s with
  | EmptyString => true
  | String c s' => isDigit c && allDigits s'
  end.

(** The value of a string of decimal digits, most significant first. *)
Fixpoint decimalFrom (acc : Z) (s : string) : Z :=
  match s with
  | EmptyString => acc
  | String c s' => decimalFrom (10 * acc + digitValue c) s'
  end.

Definition isWhiteSpace (c : ascii) : bool :=
  let n := nat_of_ascii c in
  ((9 <=? n)%nat && (n <=? 13)%nat) || (n =? 32)%nat.

Fixpoint allWhiteSpace (s : string) : bool :=
  match s with
  | EmptyString => true
  | String c s' => isWhiteSpace c && allWhiteSpace s'
  end.

(** [parseInt(s, 10)] on the strings the library passes to it: a string
    that starts with a digit gives the value of its leading digits,
    a string that starts with any other character that is not white space
    or a sign gives NaN, as does the empty string. *)
Fixpoint leadingDigits (s : string) : string :=
  match s with
  | EmptyString => EmptyString
  | String c s' => if isDigit c then String c (leadingDigits s') else EmptyString
  end.

Definition parseInt (s : string) : number :=
  match leadingDigits s with
  | EmptyString => NaN
  | ds => Some (decimalFrom 0 ds)
  end.

(** [+s] and [Number(s)] on the strings the library passes to them:
    empty or blank gives 0, a string of digits its value, any other
    string without sign, point or exponent gives NaN. *)
Definition toNumber (s : string) : number :=
  if allWhiteSpace s then Some 0
  else if allDigits s then Some (decimalFrom 0 s)
  else NaN.

(** [s.split('')] and [a.join('')] *)
Definition chars (s : string) : list ascii := list_ascii_of_string s.
Definition join (l : list ascii) : string := string_of_list_ascii l.

Definition str (c : ascii) : string := String c EmptyString.

Fixpoint take (n : nat) (s : string) : string :=
  match n, s with
  | S n', String c s' => String c (take n' s')
  | _, _ => EmptyString
  end.

Fixpoint drop (n : nat) (s : string) : string :=
  match n, s with
  | S n', String _ s' => drop n' s'
  | _, _ => s
  end.

(** [s.slice(b, e)] and [s.substring(b, e)] for [0 <= b <= e]. *)
Definition slice (b e : nat) (s : string) : string := take (e - b) (drop b s).

(** [s.slice(b)] and [s.substr(b)] for [0 <= b]. *)
Definition sliceFrom (b : nat) (s : string) : string := drop b s.

(** [s.substr(b, n)] for [0 <= b]; a negative count gives the empty string. *)
Definition substr (b : nat) (n : Z) (s : string) : string := take (Z.to_nat n) (drop b s).

(** [s.charAt(i)]: the empty string out of range. *)
Definition charAt (i : Z) (s : string) : string :=
  if i <? 0 then EmptyString else take 1 (drop (Z.to_nat i) s).

(** [s[i]]: [None] is undefined. *)
Definition index (s : string) (i : nat) : option string :=
  match drop i s with
  | String c _ => Some (str c)
  | EmptyString => None
  end.

(** [x === t] where [x] may be undefined and [t] is a string. *)
Definition strictEq (x : option string) (t : string) : bool :=
  match x with
  | Some u => String.eqb u t
  | None => false
  end.

(** [+x] where [x] is [s[i]]: undefined gives NaN. *)
Definition plusIndexed (x : option string) : number :=
  match x with
  | Some u => toNumber u
  | None => NaN
  end.

(** [s.padStart(n, '0')] *)
Fixpoint zeros (n : nat) : string :=
  match n with
  | O => EmptyString
  | S n' => String "0" (zeros n')
  end.

Definition padStart0 (n : nat) (s : string) : string :=
  zeros (n - String.length s) ++ s.

(** [a.reduce((acc, x, i) => f(acc, x, i), init)] *)
Fixpoint reduceFrom {A B} (f : B -> A -> Z -> B) (l : list A) (acc : B) (i : Z) : B :=
  match l with
  | [] => acc
  | x :: l' => reduceFrom f l' (f acc x i) (i + 1)
  end.

Definition reduce {A B} (f : B -> A -> Z -> B) (l : list A) (init : B) : B :=
  reduceFrom f l init 0.

(** [a.indexOf(x)] on an array of integers: -1 when absent. *)
Fixpoint indexOfFrom (l : list Z) (x : Z) (i : Z) : Z :=
  match l with
  | [] => -1
  | y :: l' => if y =? x then i else indexOfFrom l' x (i + 1)
  end.

Definition indexOf (l : list Z) (x : Z) : Z := indexOfFrom l x 0.

(** [a.includes(x)] on an array of integers; [x] may be NaN, which no
    integer equals. *)
Definition includes (l : list Z) (x : number) : bool :=
  match x with
  | Some z => existsb (Z.eqb z) l
  | None => false
  end.

(** [a.indexOf(s) >= 0] and [a.includes(s)] on an array of strings. *)
Definition includesStr (l : list string) (s : string) : bool :=
  existsb (String.eqb s) l.

(** [a[i]] on an array of integers: NaN stands for undefined, which
    every use here passes to arithmetic. *)
Definition nthNumber (l : list Z) (i : Z) : number :=
  if i <? 0 then NaN else nth_error l (Z.to_nat i).

(** Regular expressions, matched against a whole string (the patterns of
    the library are all anchored with [^] and [$]). *)
Inductive regex :=
| Void
| Eps
| Class (p : ascii -> bool)
| Seq (r1 r2 : regex)
| Alt (r1 r2 : regex)
| Star (r : regex).

Fixpoint nullable (r : regex) : bool :=
  match r with
  | Void => false
  | Eps => true
  | Class _ => false
  | Seq r1 r2 => nullable r1 && nullable r2
  | Alt r1 r2 => nullable r1 || nullable r2
  | Star _ => true
  end.

Fixpoint deriv (c : ascii) (r : regex) : regex :=
  match r with
  | Void => Void
  | Eps => Void
  | Class p => if p c then Eps else Void
  | Seq r1 r2 =>
      if nullable r1 then Alt (Seq (deriv c r1) r2) (deriv c r2)
      else Seq (deriv c r1) r2
  | Alt r1 r2 => Alt (deriv c r1) (deriv c r2)
  | Star r1 => Seq (deriv c r1) (Star r1)
  end.

(** [/^r$/.test(s)] *)
Fixpoint test (r : regex) (s : string) : bool :=
  match s with
  | EmptyString => nullable r
  | String c s' => test (deriv c r) s'
  end.

Definition Opt (r : regex) : regex := Alt r Eps.
Definition Plus (r : regex) : regex := Seq r (Star r).
Definition Chr (c : ascii) : regex := Class (Ascii.eqb c).
Definition Digit : regex := Class isDigit.

Fixpoint Rep (n : nat) (r : regex) : regex :=
  match n with
  | O => Eps
  | S n' => Seq r (Rep n' r)
  end.

Fixpoint SeqAll (rs : list regex) : regex :=
  match rs with
  | [] => Eps
  | r :: rs' => Seq r (SeqAll rs')
  end.

(** [s.replace(/[class]/g, '')] *)
Fixpoint removeAll (p : ascii -> bool) (s : string) : string :=
  match s with
  | EmptyString => EmptyString
  | String c s' => if p c then removeAll p s' else String c (removeAll p s')
  end.

Fixpoint inClass (cls : string) (c : ascii) : bool :=
  match cls with
  | EmptyString => false
  | String d cls' => Ascii.eqb c d || inClass cls' c
  end.

End Js.

Import Js.

(** ** The helpers shared by the identifier modules *)

Module Helpers.

(** Modelled from the spec: [onlyNumbers] of [helpers], which is not among
    the sources. "Given any input, returns the ordered sequence of ASCII
    digit characters it contains, preserving order, discarding all other
    characters. Total function; never fails; empty input yields empty
    output." *)
Fixpoint onlyNumbers (s : string) : string :=
  match s with
  | EmptyString => EmptyString
  | String c s' => if isDigit c then String c (onlyNumbers s') else onlyNumbers s'
  end.

(** Modelled from the spec: [onlyNumbers] of a value that need not be a
    string ("given any input"): the digits of its rendering as a string. *)
Definition onlyNumbersOf (v : JsValue) : string := onlyNumbers (toString v).

(** Modelled from the spec: [isLastChar] of [helpers], which is not among
    the sources. The position "is the last character of the string". *)
Definition isLastChar (index : Z) (input : string) : bool :=
  index =? Z.of_nat (String.length input) - 1.

(** A weight argument is one number or a table of numbers. *)
Inductive Weight :=
| WNumber (w : Z)
| WTable (ws : list Z).

(** Modelled from the spec: [generateChecksum] of [helpers], which is not
    among the sources. "Multiply each digit by its assigned weight, sum":
    a table assigns its entries to the digits from the left; a single
    number [w] assigns [w], [w - 1], ... from the left, so that the weights
    grow from the rightmost digit to the left. *)
Definition generateChecksum (base : string) (weight : Weight) : number :=
  let digits := onlyNumbers base in
  reduce (fun acc digit i =>
            let currentWeight :=
              match weight with
              | WNumber w => Some (w - i)
              | WTable ws => nthNumber ws i
              end in
            add acc (mul (parseInt (str digit)) currentWeight))
         (chars digits) (Some 0).

(** The random source: the successive decimal digits drawn, each standing
    for one [Math.floor(Math.random() * 10)], so between 0 and 9. *)
Definition Random := nat -> Z.

(** Modelled from the spec: [generateRandomNumber] of [helpers], which is
    not among the sources. "Draw N random digits": the digits are the next
    [length] draws of the source, from position [pos]; the result carries
    the position after them. *)
Fixpoint generateRandomNumber (rnd : Random) (length : nat) (pos : nat) : string * nat :=
  match length with
  | O => (EmptyString, pos)
  | S n =>
      let (rest, pos') := generateRandomNumber rnd n (S pos) in
      (intToString (rnd pos) ++ rest, pos')
  end.

End Helpers.

Import Helpers.

(** ** The reference tables *)

Module Tables.

(** Modelled from the spec: one entry of [STATES_DATA], which is not among
    the sources. Each state code maps "to its full name, numeric code,
    list of telephone area codes"; the sources read the fields [code],
    [name] and [areaCodes]. *)
Record StateData := {
  code : Z;
  name : string;
  areaCodes : list Z;
}.

(** An object with string keys, in insertion order. *)
Definition object (V : Type) := list (string * V).

(** [o[k]]: [None] is undefined. *)
Fixpoint prop {V} (o : object V) (k : string) : option V :=
  match o with
  | [] => None
  | (k', v) :: o' => if String.eqb k' k then Some v else prop o' k
  end.

(** [o[k] = v] on an existing key. *)
Fixpoint setProp {V} (o : object V) (k : string) (v : V) : object V :=
  match o with
  | [] => []
  | (k', v') :: o' =>
      if String.eqb k' k then (k', v) :: o' else (k', v') :: setProp o' k v
  end.

(** [Object.keys(o)] and [Object.values(o)] *)
Definition keys {V} (o : object V) : list string := map fst o.
Definition values {V} (o : object V) : list V := map snd o.

(** Modelled from the spec: the static data of [common/states] and
    [common/cities], which are not among the sources: the list of state
    codes, the record of each state and the array of city names of each
    state. Their contents are a parameter of every definition that reads
    them. The arrays of city names are the shared objects the accessors
    hand out, so the store goes in and comes out of the accessors. *)
Record Store := {
  STATES : list string;
  STATES_DATA : object StateData;
  CITIES_DATA : object (list string);
}.

End Tables.

Import Tables.

(** The step shared by every [format]: append the digit, then the separator
    the module's index tables give for this position, if any. *)
Definition appendDigit (acc : string) (digit : ascii) : string := acc ++ str digit.

(** [a.every(f)] where [f] updates a variable of the enclosing function. *)
Fixpoint everyWith {S A} (f : S -> A -> bool * S) (l : list A) (s : S) : bool :=
  match l with
  | [] => true
  | x :: l' => let (b, s') := f s x in if b then everyWith f l' s' else false
  end.

(** ** CPF *)

Module Cpf.

Definition LENGTH : nat := 11.

Definition DOT_INDEXES : list Z := [2; 5].

Definition HYPHEN_INDEXES : list Z := [8].

Definition RESERVED_NUMBERS : list string :=
  [ "00000000000"; "11111111111"; "22222222222"; "33333333333";
    "44444444444"; "55555555555"; "66666666666"; "77777777777";
    "88888888888"; "99999999999" ].

Definition CHECK_DIGITS_INDEXES : list nat := [9; 10]%nat.

(** [options.pad]; an absent option is [false]. *)
Record FormatCpfOptions := { pad : bool }.

Definition format (cpf : JsValue) (options : FormatCpfOptions) : string :=
  let digits := onlyNumbersOf cpf in
  let digits := if pad options then padStart0 LENGTH digits else digits in
  reduce (fun acc digit i =>
            let result := appendDigit acc digit in
            if negb (isLastChar i digits) then
              if 0 <=? indexOf DOT_INDEXES i then result ++ "."
              else if 0 <=? indexOf HYPHEN_INDEXES i then result ++ "-"
              else result
            else result)
         (chars (slice 0 LENGTH digits)) "".

(** The check digit for a remainder: [(mod < 2 ? 0 : 11 - mod).toString()]. *)
Definition checkDigit (mod_ : number) : string :=
  numberToString (if lt mod_ (Some 2) then Some 0 else sub (Some 11) mod_).

Definition generate (tbl : Store) (rnd : Random) (state : option string) (pos : nat)
  : result (string * nat) :=
  let fromSource :=
    let (d, pos') := generateRandomNumber rnd 1 pos in Ok (d, pos') in
  bind
    match state with
    | Some st =>
        if negb (String.eqb st "") && includesStr (STATES tbl) st then
          match prop (STATES_DATA tbl) st with
          | Some data => Ok (intToString (code data), pos)
          | None => Throw TypeError
          end
        else fromSource
    | None => fromSource
    end
    (fun '(stateCode, pos) =>
       let (base, pos) := generateRandomNumber rnd (LENGTH - 3) pos in
       let baseCPF := base ++ stateCode in
       let firstCheckDigitMod := rem (generateChecksum baseCPF (WNumber 10)) (Some 11) in
       let firstCheckDigit := checkDigit firstCheckDigitMod in
       let secondCheckDigitMod :=
         rem (generateChecksum (baseCPF ++ firstCheckDigit) (WNumber 11)) (Some 11) in
       let secondCheckDigit := checkDigit secondCheckDigitMod in
       Ok (baseCPF ++ firstCheckDigit ++ secondCheckDigit, pos)).

(** [/^\d{3}\.?\d{3}\.?\d{3}-?\d{2}$/] *)
Definition formatPattern : regex :=
  SeqAll [ Rep 3 Digit; Opt (Chr "."); Rep 3 Digit; Opt (Chr ".");
           Rep 3 Digit; Opt (Chr "-"); Rep 2 Digit ].

Definition isValidFormat (cpf : string) : bool := test formatPattern cpf.

Definition isReservedNumber (cpf : string) : bool := includesStr RESERVED_NUMBERS cpf.

Definition isValidChecksum (cpf : string) : bool :=
  forallb (fun i =>
             let mod_ :=
               rem (generateChecksum
                      (reduce (fun acc digit _ => appendDigit acc digit)
                              (chars (slice 0 i cpf)) "")
                      (WNumber (Z.of_nat i + 1)))
                   (Some 11) in
             strictEq (index cpf i) (checkDigit mod_))
          CHECK_DIGITS_INDEXES.

Definition isValid (cpf : JsValue) : bool :=
  match cpf with
  | VString s =>
      if negb (truthy cpf) then false
      else
        let digits := onlyNumbers s in
        isValidFormat s && negb (isReservedNumber digits) && isValidChecksum digits
  | _ => false
  end.

End Cpf.

(** ** CNPJ *)

Module Cnpj.

Definition LENGTH : nat := 14.

Definition DOT_INDEXES : list Z := [1; 4].

Definition SLASH_INDEXES : list Z := [7].

Definition HYPHEN_INDEXES : list Z := [11].

Definition RESERVED_NUMBERS : list string :=
  [ "00000000000000"; "11111111111111"; "22222222222222"; "33333333333333";
    "44444444444444"; "55555555555555"; "66666666666666"; "77777777777777";
    "88888888888888"; "99999999999999" ].

Definition CHECK_DIGITS_INDEXES : list nat := [12; 13]%nat.

Definition FIRST_CHECK_DIGIT_WEIGHTS : list Z := [5; 4; 3; 2; 9; 8; 7; 6; 5; 4; 3; 2].

Definition SECOND_CHECK_DIGIT_WEIGHTS : list Z := [6] ++ FIRST_CHECK_DIGIT_WEIGHTS.

Record FormatCnpjOptions := { pad : bool }.

Definition format (cnpj : JsValue) (options : FormatCnpjOptions) : string :=
  let digits := onlyNumbersOf cnpj in
  let digits := if pad options then padStart0 LENGTH digits else digits in
  reduce (fun acc digit index =>
            let result := appendDigit acc digit in
            if negb (isLastChar index digits) then
              if includes DOT_INDEXES (Some index) then result ++ "."
              else if includes SLASH_INDEXES (Some index) then result ++ "/"
              else if includes HYPHEN_INDEXES (Some index) then result ++ "-"
              else result
            else result)
         (chars (slice 0 LENGTH digits)) "".

Definition checkDigit (mod_ : number) : string :=
  numberToString (if lt mod_ (Some 2) then Some 0 else sub (Some 11) mod_).

Definition generate (rnd : Random) (pos : nat) : string * nat :=
  let (baseCNPJ, pos) := generateRandomNumber rnd (LENGTH - 2) pos in
  let firstCheckDigitMod :=
    rem (generateChecksum baseCNPJ (WTable FIRST_CHECK_DIGIT_WEIGHTS)) (Some 11) in
  let firstCheckDigit := checkDigit firstCheckDigitMod in
  let secondCheckDigitMod :=
    rem (generateChecksum (baseCNPJ ++ firstCheckDigit) (WTable SECOND_CHECK_DIGIT_WEIGHTS))
        (Some 11) in
  let secondCheckDigit := checkDigit secondCheckDigitMod in
  (baseCNPJ ++ firstCheckDigit ++ secondCheckDigit, pos).

(** [/^\d{2}\.?\d{3}\.?\d{3}\/?\d{4}-?\d{2}$/] *)
Definition formatPattern : regex :=
  SeqAll [ Rep 2 Digit; Opt (Chr "."); Rep 3 Digit; Opt (Chr ".");
           Rep 3 Digit; Opt (Chr "/"); Rep 4 Digit; Opt (Chr "-"); Rep 2 Digit ].

Definition isValidFormat (cnpj : string) : bool := test formatPattern cnpj.

Definition isReservedNumber (cpf : string) : bool := includesStr RESERVED_NUMBERS cpf.

(** [weights] is the local array the callback of [every] grows with
    [unshift(6)] when it reaches the last check digit index. *)
Definition isValidChecksum (cnpj : string) : bool :=
  let weights := FIRST_CHECK_DIGIT_WEIGHTS in
  everyWith (fun weights i =>
               let weights :=
                 if (i =? last CHECK_DIGITS_INDEXES 0)%nat then 6 :: weights else weights in
               let mod_ :=
                 rem (generateChecksum
                        (reduce (fun acc digit _ => appendDigit acc digit)
                                (chars (slice 0 i cnpj)) "")
                        (WTable weights))
                     (Some 11) in
               (strictEq (index cnpj i) (checkDigit mod_), weights))
            CHECK_DIGITS_INDEXES weights.

Definition isValid (cnpj : JsValue) : bool :=
  match cnpj with
  | VString s =>
      if negb (truthy cnpj) then false
      else
        let numbers := onlyNumbers s in
        isValidFormat s && negb (isReservedNumber numbers) && isValidChecksum numbers
  | _ => false
  end.

End Cnpj.

(** ** CEP *)

Module Cep.

Definition LENGTH : nat := 8.

Definition HYPHEN_INDEXES : list Z := [4].

Definition isValidLength (cep : string) : bool :=
  (String.length cep =? LENGTH)%nat.

Definition format (cep : string) : string :=
  let digits := onlyNumbers cep in
  reduce (fun acc digit i =>
            let result := appendDigit acc digit in
            if negb (isLastChar i digits) then
              if 0 <=? indexOf HYPHEN_INDEXES i then result ++ "-"
              else result
            else result)
         (chars (slice 0 LENGTH digits)) "".

Definition isValid (cep : JsValue) : bool :=
  match cep with
  | VString s =>
      if negb (truthy cep) then false
      else
        let digits := onlyNumbers s in
        isValidLength digits
  | _ => false
  end.

End Cep.

(** ** Phone *)

Module Phone.

Section WithTables.

Variable tbl : Store.

(** [Object.keys(STATES_DATA).reduce((acc, state) =>
      acc.concat(STATES_DATA[state].areaCodes), [])]; every key has its
    entry, so the lookup never misses. *)
Definition VALID_AREA_CODES : list Z :=
  reduce (fun acc state _ =>
            match prop (STATES_DATA tbl) state with
            | Some data => (acc ++ areaCodes data)%list
            | None => acc
            end)
         (keys (STATES_DATA tbl)) [].

Definition PHONE_MIN_LENGTH : Z := 10.

Definition PHONE_MAX_LENGTH : Z := 11.

Definition MOBILE_VALID_FIRST_NUMBERS : list Z := [6; 7; 8; 9].

Definition LANDLINE_VALID_FIRST_NUMBERS : list Z := [2; 3; 4; 5].

Definition len (s : string) : Z := Z.of_nat (String.length s).

Definition isValidDDD (phone : string) : bool :=
  includes VALID_AREA_CODES (toNumber (substr 0 2 phone)).

Definition isValidMobilePhoneLength (phone : string) : bool :=
  len phone =? PHONE_MAX_LENGTH.

Definition isValidLandlinePhoneLength (phone : string) : bool :=
  (PHONE_MIN_LENGTH <=? len phone) && (len phone <? PHONE_MAX_LENGTH).

Definition isValidLength (phone : string) : bool :=
  isValidLandlinePhoneLength phone || isValidMobilePhoneLength phone.

Definition isValidMobilePhoneFirstNumber (phone : string) : bool :=
  includes MOBILE_VALID_FIRST_NUMBERS (toNumber (charAt 2 phone)).

Definition isValidLandlinePhoneFirstNumber (phone : string) : bool :=
  includes LANDLINE_VALID_FIRST_NUMBERS (toNumber (charAt 2 phone)).

Definition isValidFirstNumber (phone : string) : bool :=
  if len phone =? PHONE_MIN_LENGTH
  then isValidLandlinePhoneFirstNumber phone
  else isValidMobilePhoneFirstNumber phone.

Definition parsePhoneDigits (phone : JsValue) : bool * string :=
  (truthy phone && isString phone, onlyNumbersOf phone).

Definition isValidMobilePhone (phone : JsValue) : bool :=
  let (isValidDigits, digits) := parsePhoneDigits phone in
  if negb isValidDigits then false
  else isValidMobilePhoneLength digits && isValidMobilePhoneFirstNumber digits
       && isValidDDD digits.

Definition isValidLandlinePhone (phone : JsValue) : bool :=
  let (isValidDigits, digits) := parsePhoneDigits phone in
  if negb isValidDigits then false
  else isValidLandlinePhoneLength digits && isValidLandlinePhoneFirstNumber digits
       && isValidDDD digits.

Definition isValid (phone : JsValue) : bool :=
  let (isValidDigits, digits) := parsePhoneDigits phone in
  if negb isValidDigits then false
  else isValidLength digits && isValidFirstNumber digits && isValidDDD digits.

End WithTables.

End Phone.

(** ** Currency *)

Module Currency.

(** [options.precision]; [None] is an options object without it. *)
Record FormatOptions := { precision : option Z }.

(** The default argument [{ precision: 2 }]. *)
Definition defaultOptions : FormatOptions := {| precision := Some 2 |}.

(** The length of the run of digits a string starts with. *)
Fixpoint digitRun (s : string) : nat :=
  match s with
  | EmptyString => O
  | String c s' => if isDigit c then S (digitRun s') else O
  end.

(** [s.replace(/(\d)(?=(\d{3})+(?!\d))/g, '$1.')]: a dot goes after every
    digit that is followed by a run of digits whose length is a positive
    multiple of three. *)
Fixpoint groupThousands (s : string) : string :=
  match s with
  | EmptyString => EmptyString
  | String c s' =>
      let n := digitRun s' in
      if isDigit c && negb (n =? 0)%nat && (n mod 3 =? 0)%nat
      then String c (String "." (groupThousands s'))
      else String c (groupThousands s')
  end.

(** [s.replace('.', ',')]: the first dot only. *)
Fixpoint replaceFirstDot (s : string) : string :=
  match s with
  | EmptyString => EmptyString
  | String c s' => if Ascii.eqb c "." then String "," s' else String c (replaceFirstDot s')
  end.

Section Format.

(** The doubles, and the digits [value.toFixed(f)] prints for a number
    of fraction digits between 0 and 100: both are the runtime's. *)
Variable double : Type.
Variable toFixedDigits : double -> Z -> string.

(** [value.toFixed(f)]: an absent [f] counts as 0, and the method
    throws a RangeError outside 0..100. *)
Definition toFixed (value : double) (fractionDigits : option Z) : result string :=
  let f := match fractionDigits with Some f => f | None => 0 end in
  if (f <? 0) || (100 <? f) then Throw RangeError
  else Ok (toFixedDigits value f).

Definition format (value : double) (options : FormatOptions) : result string :=
  bind (toFixed value (precision options))
       (fun s => Ok (groupThousands (replaceFirstDot s))).

End Format.

(** What [parse] returns. The source divides the integer [parseInt] has
    read by 100. Below 2^53 that integer is exact, and the result is the
    double nearest to [cents / 100]: [Hundredths cents]. From 2^53 on
    [parseInt] rounds, and for very long strings it gives Infinity: the
    result is a double that this embedding does not compute, [Rounded].
    Where [parseInt] gives NaN the quotient is NaN: [NotANumber]. *)
Inductive amount :=
| Hundredths (cents : Z)
| Rounded
| NotANumber.

(** The integers below this bound are doubles. *)
Definition EXACT_BELOW : Z := 2 ^ 53.

(** [value.replace(...)] on the values of [JsValue]: reading [replace] of
    undefined or null throws; a boolean, a number and the object [{}]
    have no [replace], and calling it throws. *)
Definition parse (value : JsValue) : result amount :=
  match value with
  | VString s =>
      let digits := removeAll (fun c => negb (isDigit c)) s in
      match parseInt (if String.eqb digits "" then "0" else digits) with
      | Some cents =>
          if cents <? EXACT_BELOW then Ok (Hundredths cents) else Ok Rounded
      | None => Ok NotANumber
      end
  | _ => Throw TypeError
  end.

End Currency.

(** ** PIS *)

Module Pis.

Definition LENGTH : nat := 11.

Definition WEIGHTS : list Z := [3; 2; 9; 8; 7; 6; 5; 4; 3; 2].

Definition RESERVED_NUMBERS : list string :=
  [ "00000000000"; "11111111111"; "22222222222"; "33333333333";
    "44444444444"; "55555555555"; "66666666666"; "77777777777";
    "88888888888"; "99999999999" ].

Definition isValidLength (pis : string) : bool := (String.length pis =? LENGTH)%nat.

Definition isReservedNumber (pis : string) : bool := includesStr RESERVED_NUMBERS pis.

(** [!!pis.match(/^[0-9]+$/)] *)
Definition hasOnlyNumbers (pis : string) : bool := test (Plus Digit) pis.

(** [pis.replace(/[ ().,*-]/g, '')] *)
Definition removeSeparators (pis : string) : string := removeAll (inClass " ().,*-") pis.

Definition isValid (pis : JsValue) : bool :=
  match pis with
  | VString s =>
      if negb (truthy pis) then false
      else
        let numeric := removeSeparators s in
        if negb (isValidLength numeric) || isReservedNumber numeric
           || negb (hasOnlyNumbers numeric)
        then false
        else
          let n := Z.of_nat (String.length numeric) in
          let weightedChecksum :=
            generateChecksum (substr 0 (n - 1) numeric) (WTable WEIGHTS) in
          let verifyingDigit := toNumber (charAt (n - 1) numeric) in
          let calculatedDigit := sub (Some 11) (rem weightedChecksum (Some 11)) in
          numEq calculatedDigit verifyingDigit
          || (numEq calculatedDigit (Some 10) && numEq verifyingDigit (Some 0))
          || (numEq calculatedDigit (Some 11) && numEq verifyingDigit (Some 0))
  | _ => false
  end.

End Pis.

(** ** Email *)

Module Email.

Definition MAX_RECIPIENT_LENGTH : Z := 64.
Definition MAX_DOMAIN_LENGTH : Z := 253.
Definition MAX_EMAIL_LENGTH : Z := MAX_RECIPIENT_LENGTH + 1 + MAX_DOMAIN_LENGTH.

Definition isAlnum (c : ascii) : bool :=
  let n := nat_of_ascii c in
  ((97 <=? n) && (n <=? 122) || (65 <=? n) && (n <=? 90) || (48 <=? n) && (n <=? 57))%nat.

Definition special : string := "!#$%&'*+-/=?^_`{|}~".

(** The pattern of [validEmailRegex]: a recipient, [@], a domain and a
    top-level domain. *)
Definition recipientPattern : regex :=
  Seq (Opt (Class (inClass special)))
      (Plus (Seq (Class isAlnum) (Opt (Class (inClass (special ++ "."))))) ).

Definition domainPattern : regex :=
  Plus (Seq (Class isAlnum) (Opt (Class (inClass "-.")))).

Definition topLevelDomainPattern : regex :=
  Seq (Chr ".") (Plus (Class isAlnum)).

Definition validEmailRegex : regex :=
  SeqAll [recipientPattern; Chr "@"; domainPattern; topLevelDomainPattern].

(** The part of a string before the first [c], and the part after it. *)
Fixpoint before (c : ascii) (s : string) : string :=
  match s with
  | EmptyString => EmptyString
  | String d s' => if Ascii.eqb d c then EmptyString else String d (before c s')
  end.

Fixpoint after (c : ascii) (s : string) : string :=
  match s with
  | EmptyString => EmptyString
  | String d s' => if Ascii.eqb d c then s' else after c s'
  end.

Fixpoint contains (c : ascii) (s : string) : bool :=
  match s with
  | EmptyString => false
  | String d s' => Ascii.eqb d c || contains c s'
  end.

(** The part of a string from its last [c] on. *)
Fixpoint fromLast (c : ascii) (s : string) : string :=
  match s with
  | EmptyString => EmptyString
  | String d s' =>
      if contains c s' then fromLast c s'
      else if Ascii.eqb d c then s else EmptyString
  end.

(** [validEmailRegex.exec(email)], giving the groups the source reads:
    the recipient, the domain and the top-level domain. No class of the
    pattern holds [@], so the recipient of a match is what precedes the
    [@]; the top-level domain holds one dot, its first character, so it
    starts at the last dot; the domain is what lies between. *)
Definition exec (email : string) : option (string * string * string) :=
  if test validEmailRegex email then
    let recipient := before "@" email in
    let rest := after "@" email in
    let topLevelDomain := fromLast "." rest in
    let domain := take (String.length rest - String.length topLevelDomain) rest in
    Some (recipient, domain, topLevelDomain)
  else None.

Definition stringIsBiggerThan (len : Z) (strs : list string) : bool :=
  len <? reduce (fun length s _ => length + Z.of_nat (String.length s)) strs 0.

Definition isValid (email : JsValue) : bool :=
  match email with
  | VString s =>
      if negb (truthy email) then false
      else if stringIsBiggerThan MAX_EMAIL_LENGTH [s] then false
      else
        match exec s with
        | None => false
        | Some (recipient, domain, topLevelDomain) =>
            if stringIsBiggerThan MAX_RECIPIENT_LENGTH [recipient] then false
            else if stringIsBiggerThan MAX_DOMAIN_LENGTH [domain; topLevelDomain] then false
            else true
        end
  | _ => false
  end.

End Email.

(** ** Boleto *)

Module Boleto.

Record Partial := { end_ : nat; start : nat; index_ : nat }.

Definition PARTIALS : list Partial :=
  [ {| end_ := 9; start := 0; index_ := 9 |};
    {| end_ := 20; start := 10; index_ := 20 |};
    {| end_ := 31; start := 21; index_ := 31 |} ]%nat.

Definition DOT_INDEXES : list Z := [4; 14; 25].

Definition SPACE_INDEXES : list Z := [9; 20; 31; 32].

Definition LENGTH : nat := 47.

Definition CHECK_DIGIT_POSITION : nat := 4.

(** [MOD_11_WEIGHTS = { end: 9, initial: 2 }] *)
Definition MOD_11_WEIGHTS_end : Z := 9.
Definition MOD_11_WEIGHTS_initial : Z := 2.

Definition MOD_10_WEIGHTS : list Z := [2; 1].

Definition DIGITABLE_LINE_TO_BOLETO_CONVERT_POSITIONS : list (nat * nat) :=
  (* (start, end) *)
  [ (0, 4); (32, 47); (4, 9); (10, 20); (21, 31) ]%nat.

Definition isValidLength (digitableLine : string) : bool :=
  (String.length digitableLine =? LENGTH)%nat.

Definition mod10 (partial : string) : number :=
  let sum :=
    reduce (fun acc digit index =>
              let result :=
                mul (parseInt (str digit)) (nthNumber MOD_10_WEIGHTS (Z.rem index 2)) in
              add acc (if gt result (Some 9)
                       then add (Some 1) (rem result (Some 10))
                       else result))
           (rev (chars partial)) (Some 0) in
  let mod_ := rem sum (Some 10) in
  if gt mod_ (Some 0) then sub (Some 10) mod_ else Some 0.

(** [weight] is the variable of [mod11] that the callback of [reduce]
    updates: it travels with the accumulator. *)
Definition mod11 (value : string) : number :=
  let initial := MOD_11_WEIGHTS_initial in
  let end_ := MOD_11_WEIGHTS_end in
  let weight := initial in
  let '(sum, _) :=
    reduce (fun '(acc, weight) digit _ =>
              let result := mul (parseInt (str digit)) (Some weight) in
              let weight := if weight <? end_ then weight + 1 else initial in
              (add acc result, weight))
           (rev (chars value)) (Some 0, weight) in
  let mod_ := rem sum (Some 11) in
  if numEq mod_ (Some 0) || numEq mod_ (Some 1) then Some 1 else sub (Some 11) mod_.

Definition isValidPartials (digitableLine : string) : bool :=
  forallb (fun p =>
             let mod_ := mod10 (slice (start p) (end_ p) digitableLine) in
             numEq (plusIndexed (index digitableLine (index_ p))) mod_)
          PARTIALS.

Definition parse (digitableLine : string) : string :=
  reduce (fun acc pos _ => acc ++ slice (fst pos) (snd pos) digitableLine)
         DIGITABLE_LINE_TO_BOLETO_CONVERT_POSITIONS "".

Definition isValidCheckDigit (parsedDigitableLine : string) : bool :=
  let mod_ :=
    mod11 (slice 0 CHECK_DIGIT_POSITION parsedDigitableLine
           ++ sliceFrom (CHECK_DIGIT_POSITION + 1) parsedDigitableLine) in
  numEq (plusIndexed (index parsedDigitableLine CHECK_DIGIT_POSITION)) mod_.

Definition isValid (digitableLine : JsValue) : bool :=
  match digitableLine with
  | VString s =>
      if negb (truthy digitableLine) then false
      else
        let digits := onlyNumbers s in
        if negb (isValidLength digits) then false
        else if negb (isValidPartials digits) then false
        else
          let parsedDigits := parse digits in
          isValidCheckDigit parsedDigits
  | _ => false
  end.

Definition format (boleto : string) : string :=
  let digits := onlyNumbers boleto in
  reduce (fun acc digit index =>
            let result := appendDigit acc digit in
            if negb (isLastChar index digits) then
              if 0 <=? indexOf DOT_INDEXES index then result ++ "."
              else if 0 <=? indexOf SPACE_INDEXES index then result ++ " "
              else result
            else result)
         (chars (slice 0 LENGTH digits)) "".

End Boleto.

(** ** Processo jurídico *)

Module ProcessoJuridico.

Definition LENGTH : nat := 20.

Definition DOT_INDEXES : list Z := [8; 12; 15].

Definition HYPHEN_INDEXES : list Z := [6].

Definition CHECK_DIGIT_START_POSITION : nat := 7.

Definition CHECK_DIGIT_LENGTH : nat := 2.

Definition MOD_97_10_QUOCIENT : Z := 97.

Definition MOD_97_10_SUM : Z := 98.

(** The last-character test reads the argument [processoJuridico], not
    [digits]. *)
Definition format (processoJuridico : string) : string :=
  let digits := onlyNumbers processoJuridico in
  reduce (fun acc digit index =>
            let result := appendDigit acc digit in
            if negb (isLastChar index processoJuridico) then
              if includes DOT_INDEXES (Some index) then result ++ "."
              else if includes HYPHEN_INDEXES (Some index) then result ++ "-"
              else result
            else result)
         (chars (slice 0 LENGTH digits)) "".

(** [Math.pow(10, e)]. The exponents are not negative as long as
    [processo] has at most 20 characters, which is all [isValid] passes;
    a negative exponent gives a fraction, which the integers of this
    embedding do not hold, and stands here as NaN. *)
Definition pow10 (e : Z) : number :=
  if e <? 0 then NaN else Some (10 ^ e).

(** [digits.splice(start, count)] on the local array: the removed elements
    and what is left of the array. *)
Definition splice {A} (start count : nat) (l : list A) : list A * list A :=
  (firstn count (skipn start l), (firstn start l ++ skipn (start + count) l)%list).

Definition verifyDigit (processo : string) : bool :=
  let digits := chars processo in
  let (removed, digits) := splice CHECK_DIGIT_START_POSITION CHECK_DIGIT_LENGTH digits in
  let verificationDigits := join removed in
  let digits1to11 :=
    reduce (fun acc digit index =>
              add acc (mul (toNumber (str digit)) (pow10 (10 - index))))
           (firstn 11 digits) (Some 0) in
  let firstRemainder := rem digits1to11 (Some MOD_97_10_QUOCIENT) in
  let digits12to18 :=
    reduce (fun acc digit index =>
              add acc (mul (toNumber (str digit)) (pow10 (6 - index))))
           (skipn 11 digits) (Some 0) in
  let secondRemainder :=
    rem (add (mul firstRemainder (Some 1000000000)) (mul digits12to18 (Some 100)))
        (Some MOD_97_10_QUOCIENT) in
  let verifier := sub (Some MOD_97_10_SUM) secondRemainder in
  numEq verifier (toNumber verificationDigits).

Definition isValid (processoJuridico : JsValue) : bool :=
  match processoJuridico with
  | VString s =>
      if negb (truthy processoJuridico) then false
      else
        let digits := onlyNumbers s in
        if negb (String.length digits =? LENGTH)%nat then false
        else verifyDigit digits
  | _ => false
  end.

End ProcessoJuridico.

(** ** Sorting in place *)

Module Sorting.

Section Sort.

Variable A : Type.

(** The comparator: negative, zero or positive. *)
Variable compare : A -> A -> Z.

Fixpoint insert (x : A) (l : list A) : list A :=
  match l with
  | [] => [x]
  | y :: l' => if compare x y <=? 0 then x :: l else y :: insert x l'
  end.

(** [a.sort(compare)]: the sort is stable, and for a comparator that is
    a total preorder, as [localeCompare] is, every stable sort gives
    this list. *)
Fixpoint sort (l : list A) : list A :=
  match l with
  | [] => []
  | x :: l' => insert x (sort l')
  end.

Fixpoint sortedb (l : list A) : bool :=
  match l with
  | [] => true
  | x :: l' =>
      match l' with
      | [] => true
      | y :: _ => (compare x y <=? 0) && sortedb l'
      end
  end.

End Sort.

End Sorting.

(** ** States and cities *)

Module States.

Record State := { code : string; name : string }.

Section WithLocale.

(** [a.localeCompare(b)] of the runtime's locale. *)
Variable localeCompare : string -> string -> Z.

Definition stateNameComparer (a b : State) : Z := localeCompare (name a) (name b).

(** [states.sort(stateNameComparer)]: in place, on the array it is given. *)
Definition sortByStateName (states : list State) : list State :=
  Sorting.sort stateNameComparer states.

(** [STATES.map(code => ({ code, name: STATES_DATA[code].name }))]:
    a new array; reading [name] of a missing entry throws. *)
Fixpoint mapStates (tbl : Store) (codes : list string) : result (list State) :=
  match codes with
  | [] => Ok []
  | c :: codes' =>
      match prop (STATES_DATA tbl) c with
      | None => Throw TypeError
      | Some data =>
          bind (mapStates tbl codes')
               (fun rest => Ok ({| code := c; name := Tables.name data |} :: rest))
      end
  end.

(** The store goes in and comes out: [getStates] sorts the array it has
    just built, never one of the tables. *)
Definition getStates (tbl : Store) : result (list State) * Store :=
  let states := mapStates tbl (STATES tbl) in
  (bind states (fun states => Ok (sortByStateName states)), tbl).

End WithLocale.

End States.

Module Cities.

(** What [getCities] returns: the array of a state in [CITIES_DATA]
    itself, or an array built by the call. *)
Inductive ArrayRef :=
| TableArray (code : string)
| NewArray (elems : list string).

(** The elements of an array, read through the store. *)
Definition readArray (tbl : Store) (r : ArrayRef) : list string :=
  match r with
  | TableArray c => match prop (CITIES_DATA tbl) c with Some l => l | None => [] end
  | NewArray l => l
  end.

Section WithLocale.

Variable localeCompare : string -> string -> Z.

Definition sortAlphabetically (cityA cityB : string) : Z := localeCompare cityA cityB.

(** [CITIES_DATA[code].sort(sortAlphabetically)]: the array of the table
    is sorted where it is, and is the value of the call. *)
Definition sortTableArray (tbl : Store) (c : string) : result ArrayRef * Store :=
  match prop (CITIES_DATA tbl) c with
  | None => (Throw TypeError, tbl)
  | Some cities =>
      (Ok (TableArray c),
       {| STATES := STATES tbl;
          STATES_DATA := STATES_DATA tbl;
          CITIES_DATA :=
            setProp (CITIES_DATA tbl) c (Sorting.sort sortAlphabetically cities) |})
  end.

Definition getCities (state : option string) (tbl : Store) : result ArrayRef * Store :=
  let allCities :=
    Sorting.sort sortAlphabetically
      (reduce (fun acc city _ => (acc ++ city)%list) (values (CITIES_DATA tbl)) []) in
  match state with
  | Some st =>
      if negb (String.eqb st "") then
        let (states, tbl) := States.getStates localeCompare tbl in
        match states with
        | Throw e => (Throw e, tbl)
        | Ok states =>
            let foundState :=
              find (fun s => String.eqb (States.name s) st || String.eqb (States.code s) st)
                   states in
            match foundState with
            | None => (Ok (NewArray []), tbl)
            | Some found => sortTableArray tbl (States.code found)
            end
        end
      else (Ok (NewArray allCities), tbl)
  | None => (Ok (NewArray allCities), tbl)
  end.

End WithLocale.

End Cities.

(** ** Capitalize *)

Module Capitalize.

Definition ACRONYMS : list string := ["cia"; "cnpj"; "cpf"; "ltda"; "me"; "rg"].

Definition PREPOSITIONS : list string :=
  [ "a"; "com"; "da"; "das"; "de"; "do"; "dos"; "e"; "em"; "na"; "nas"; "no";
    "nos"; "o"; "por"; "sem" ].

(** An absent list is [None] and takes the default. *)
Record CapitalizeOptions := {
  lowerCaseWords : option (list string);
  upperCaseWords : option (list string);
}.

Definition noOptions : CapitalizeOptions :=
  {| lowerCaseWords := None; upperCaseWords := None |}.

(** [s.split(' ')]: the pieces between single spaces, empty ones too. *)
Fixpoint splitFrom (cur : string) (s : string) : list string :=
  match s with
  | EmptyString => [cur]
  | String c s' =>
      if Ascii.eqb c " " then cur :: splitFrom "" s'
      else splitFrom (cur ++ str c) s'
  end.

Definition split (s : string) : list string := splitFrom "" s.

(** [a.join(' ')] *)
Fixpoint joinWords (l : list string) : string :=
  match l with
  | [] => ""
  | [w] => w
  | w :: l' => w ++ " " ++ joinWords l'
  end.

(** [a.map((x, i) => f(x, i))] *)
Fixpoint mapFrom {A B} (f : A -> Z -> B) (l : list A) (i : Z) : list B :=
  match l with
  | [] => []
  | x :: l' => f x i :: mapFrom f l' (i + 1)
  end.

Section WithLocale.

(** The case mappings of the runtime's locale. *)
Variable toLocaleLowerCase toLocaleUpperCase : string -> string.

Definition capitalize (value : JsValue) (options : option CapitalizeOptions)
  : result string :=
  let options := match options with Some o => o | None => noOptions end in
  let lowerCaseWords :=
    match lowerCaseWords options with Some l => l | None => PREPOSITIONS end in
  let upperCaseWords :=
    match upperCaseWords options with Some l => l | None => ACRONYMS end in
  match value with
  | VString s =>
      Ok (joinWords
            (mapFrom (fun word index =>
                        let lowerCaseWord := toLocaleLowerCase word in
                        if (0 <? index) && includesStr lowerCaseWords lowerCaseWord
                        then lowerCaseWord
                        else
                          let upperCaseWord := toLocaleUpperCase word in
                          if includesStr upperCaseWords upperCaseWord
                          then upperCaseWord
                          else charAt 0 upperCaseWord ++ sliceFrom 1 lowerCaseWord)
                     (filter (fun word => negb (String.eqb word "")) (split s))
                     0))
  | _ => Throw TypeError
  end.

End WithLocale.

(** The case mappings on the letters a-z and A-Z, which every locale but
    the Turkic ones maps this way; other characters stay. *)
Definition lowerChar (c : ascii) : ascii :=
  let n := nat_of_ascii c in
  if ((65 <=? n) && (n <=? 90))%nat then ascii_of_nat (n + 32) else c.

Definition upperChar (c : ascii) : ascii :=
  let n := nat_of_ascii c in
  if ((97 <=? n) && (n <=? 122))%nat then ascii_of_nat (n - 32) else c.

Fixpoint mapChars (f : ascii -> ascii) (s : string) : string :=
  match s with
  | EmptyString => EmptyString
  | String c s' => String (f c) (mapChars f s')
  end.

Definition asciiLowerCase : string -> string := mapChars lowerChar.
Definition asciiUpperCase : string -> string := mapChars upperChar.

End Capitalize.

(** ** What the documentation says, in its own terms

    These definitions follow the wording of the specification; the theorems
    below compare the code above with them. *)

Module Spec.

(** A string matches a pattern. *)
Inductive matches : regex -> string -> Prop :=
| MEps : matches Eps ""
| MClass p c : p c = true -> matches (Class p) (str c)
| MSeq r1 r2 s1 s2 : matches r1 s1 -> matches r2 s2 -> matches (Seq r1 r2) (s1 ++ s2)
| MAltL r1 r2 s : matches r1 s -> matches (Alt r1 r2) s
| MAltR r1 r2 s : matches r2 s -> matches (Alt r1 r2) s
| MStarNil r : matches (Star r) ""
| MStarApp r s1 s2 : matches r s1 -> matches (Star r) s2 -> matches (Star r) (s1 ++ s2).

(** The digits of [l], each followed by the separator of its position;
    positions count from [i]. *)
Fixpoint weave (sep : Z -> string) (l : list ascii) (i : Z) : string :=
  match l with
  | [] => ""
  | d :: l' => String d (sep i ++ weave sep l' (i + 1))
  end.

(** The positional formatter: "Input is first truncated to the
    identifier's fixed maximum length"; then the separator goes
    "immediately after the digit at each listed position, except when that
    position is the last character of the (possibly
    truncated-to-max-length) string". [sepAt] is the table of positions
    and separators, empty where the table has no entry. *)
Definition positionalFormat (sepAt : Z -> string) (maxLength : nat) (digits : string)
  : string :=
  let truncated := take maxLength digits in
  let lastPosition := Z.of_nat (String.length truncated) - 1 in
  weave (fun i => if i =? lastPosition then "" else sepAt i) (chars truncated) 0.

(** The separator a [format] of the code appends after position [j]:
    none when [j] is the last character of [ref], else the one its index
    tables give. *)
Definition separatorAfter (ref : string) (sepAt : Z -> string) (j : Z) : string :=
  if isLastChar j ref then "" else sepAt j.

(** The tables of positions and separators of the five formatters. *)
Definition cpfSeparators (i : Z) : string :=
  if (i =? 2) || (i =? 5) then "." else if i =? 8 then "-" else "".

Definition cnpjSeparators (i : Z) : string :=
  if (i =? 1) || (i =? 4) then "." else if i =? 7 then "/"
  else if i =? 11 then "-" else "".

Definition cepSeparators (i : Z) : string :=
  if i =? 4 then "-" else "".

Definition boletoSeparators (i : Z) : string :=
  if (i =? 4) || (i =? 14) || (i =? 25) then "."
  else if (i =? 9) || (i =? 20) || (i =? 31) || (i =? 32) then " " else "".

Definition processoSeparators (i : Z) : string :=
  if (i =? 8) || (i =? 12) || (i =? 15) then "." else if i =? 6 then "-" else "".

(** The values of the digits of a string. *)
Definition digitsOf (s : string) : list Z := map digitValue (chars s).

(** A weighted sum: each digit times the weight aligned with it. *)
Fixpoint weightedSum (weights digits : list Z) : Z :=
  match weights, digits with
  | w :: weights', d :: digits' => d * w + weightedSum weights' digits'
  | _, _ => 0
  end.

(** The weighted sum with "weights cycling 2 through 9 from the rightmost
    digit": [digits] are taken from the right, and [k] is the number of
    digits already passed. *)
Fixpoint cyclingSum (k : Z) (digitsFromRight : list Z) : Z :=
  match digitsFromRight with
  | [] => 0
  | d :: rest => d * (2 + k mod 8) + cyclingSum (k + 1) rest
  end.

(** The boleto check digit: "remainders 0 and 1 both map to check digit 1". *)
Definition boletoCheckDigit (digits : list Z) : Z :=
  let r := cyclingSum 0 (rev digits) mod 11 in
  if (r =? 0) || (r =? 1) then 1 else 11 - r.

(** The check digits of a processo: "98 minus ((N times 100) mod 97)". *)
Definition mod97CheckDigits (N : Z) : Z := 98 - (N * 100) mod 97.

(** The PIS rule: a calculated digit of 10 or 11 asks for a verifying
    digit 0, any other for itself. *)
Definition pisAccepts (calculatedDigit verifyingDigit : Z) : bool :=
  if (calculatedDigit =? 10) || (calculatedDigit =? 11)
  then verifyingDigit =? 0
  else verifyingDigit =? calculatedDigit.

(** Every code listed in [STATES] has its record in [STATES_DATA]. *)
Definition statesHaveData (tbl : Store) : bool :=
  forallb (fun c => match prop (STATES_DATA tbl) c with
                    | Some _ => true
                    | None => false
                    end)
          (STATES tbl).

(** No listed state has [st] as its code or as its name. *)
Definition unknownState (tbl : Store) (st : string) : bool :=
  forallb (fun c => match prop (STATES_DATA tbl) c with
                    | Some data =>
                        negb (String.eqb c st) && negb (String.eqb (Tables.name data) st)
                    | None => true
                    end)
          (STATES tbl).

(** Every array of [CITIES_DATA] is in the order of the comparator. *)
Definition citiesSorted (compare : string -> string -> Z) (tbl : Store) : bool :=
  forallb (fun entry => Sorting.sortedb compare (snd entry)) (CITIES_DATA tbl).

End Spec.

(** Tables and a comparator for the examples: two states, one of them with
    its cities out of order; strings are compared character by character. *)
Module Sample.

Definition tables : Store :=
  {| STATES := ["SP"; "AC"];
     STATES_DATA :=
       [ ("SP", {| Tables.code := 8; Tables.name := "Sao Paulo"; areaCodes := [11; 12; 13] |});
         ("AC", {| Tables.code := 2; Tables.name := "Acre"; areaCodes := [68] |}) ];
     CITIES_DATA :=
       [ ("SP", ["Santos"; "Campinas"]);
         ("AC", ["Bujari"; "Rio Branco"]) ] |}.

Definition compareChars (a b : string) : Z :=
  match String.compare a b with
  | Lt => -1
  | Eq => 0
  | Gt => 1
  end.

(** A source of draws that gives 0 every time. *)
Definition allZero : Random := fun _ => 0.

End Sample.


(** ** Further notions the properties below are stated with *)

Module Notions.

(** The weights a single number [w] stands for: [w], [w - 1], ... for
    [n] digits. *)
Fixpoint descending (w : Z) (n : nat) : list Z :=
  match n with
  | O => []
  | S n' => w :: descending (w - 1) n'
  end.

(** The check digit of CPF and CNPJ for a weighted sum: 0 when the
    remainder by 11 is below 2, else 11 minus the remainder. *)
Definition mod11Digit (sum : Z) : Z :=
  if sum mod 11 <? 2 then 0 else 11 - sum mod 11.

(** The mod-10 sum of a boleto field: the digits from the right times 2
    and 1 in turn, a product above 9 counting as the sum of its two
    digits; [k] is the number of digits already passed. *)
Fixpoint alternatingSum (k : Z) (digitsFromRight : list Z) : Z :=
  match digitsFromRight with
  | [] => 0
  | d :: rest =>
      let product := d * (if k mod 2 =? 0 then 2 else 1) in
      (if 9 <? product then 1 + product mod 10 else product)
      + alternatingSum (k + 1) rest
  end.

(** The mod-10 check digit of a field. *)
Definition mod10Digit (digits : list Z) : Z :=
  let r := alternatingSum 0 (rev digits) mod 10 in
  if 0 <? r then 10 - r else 0.

(** How many times a character occurs in a string. *)
Fixpoint occurrences (c : ascii) (s : string) : nat :=
  match s with
  | EmptyString => O
  | String d s' => ((if Ascii.eqb d c then 1 else 0) + occurrences c s')%nat
  end.

(** A character that some class of the pattern accepts. *)
Fixpoint mayHold (r : regex) (c : ascii) : bool :=
  match r with
  | Void | Eps => false
  | Class p => p c
  | Seq r1 r2 | Alt r1 r2 => mayHold r1 c || mayHold r2 c
  | Star r1 => mayHold r1 c
  end.

(** The comparator never puts two elements each after the other. *)
Definition total {A} (compare : A -> A -> Z) : Prop :=
  forall a b, 0 < compare a b -> compare b a <= 0.

(** A source of draws that counts 0, 1, ..., 9, 0, 1, ... *)
Definition counting : Random := fun k => Z.of_nat (k mod 10).

End Notions.


Import Spec.

Unset Implicit Arguments.


(** ** Strings *)

Section StringFacts.

Lemma append_empty_r (s : string) : s ++ "" = s.
Proof. induction s as [|c s IH]; simpl; [reflexivity | now rewrite IH]. Qed.

Lemma append_assoc (a b c : string) : (a ++ b) ++ c = a ++ (b ++ c).
Proof. induction a as [|x a IH]; simpl; [reflexivity | now rewrite IH]. Qed.

Lemma append_eq_empty (a b : string) : a ++ b = "" -> a = "" /\ b = "".
Proof. destruct a; simpl; [auto | discriminate]. Qed.

Lemma length_append (a b : string) :
  String.length (a ++ b) = (String.length a + String.length b)%nat.
Proof. induction a as [|x a IH]; simpl; [reflexivity | now rewrite IH]. Qed.

Lemma join_chars (s : string) : join (chars s) = s.
Proof. apply string_of_list_ascii_of_string. Qed.

Lemma chars_join (l : list ascii) : chars (join l) = l.
Proof. apply list_ascii_of_string_of_list_ascii. Qed.

Lemma chars_append (a b : string) : chars (a ++ b) = (chars a ++ chars b)%list.
Proof. induction a as [|x a IH]; simpl; [reflexivity | now rewrite IH]. Qed.

Lemma length_chars (s : string) : List.length (chars s) = String.length s.
Proof. induction s as [|c s IH]; simpl; [reflexivity | now rewrite IH]. Qed.

Lemma take_drop (n : nat) (s : string) : take n s ++ drop n s = s.
Proof.
  revert s; induction n as [|n IH]; intros [|c s]; simpl; try reflexivity.
  now rewrite IH.
Qed.

Lemma length_take (n : nat) (s : string) :
  String.length (take n s) = Nat.min n (String.length s).
Proof.
  revert s; induction n as [|n IH]; intros [|c s]; simpl; try reflexivity.
  now rewrite IH.
Qed.

Lemma length_drop (n : nat) (s : string) :
  String.length (drop n s) = (String.length s - n)%nat.
Proof.
  revert s; induction n as [|n IH]; intros [|c s]; simpl; try reflexivity.
  now rewrite IH.
Qed.

Lemma take_all (n : nat) (s : string) : (String.length s <= n)%nat -> take n s = s.
Proof.
  revert s; induction n as [|n IH]; intros [|c s] H; simpl in *; try reflexivity.
  - lia.
  - rewrite IH by lia. reflexivity.
Qed.

Lemma chars_take (n : nat) (s : string) : chars (take n s) = firstn n (chars s).
Proof.
  revert s; induction n as [|n IH]; intros [|c s]; simpl; try reflexivity.
  now rewrite IH.
Qed.

Lemma chars_drop (n : nat) (s : string) : chars (drop n s) = skipn n (chars s).
Proof.
  revert s; induction n as [|n IH]; intros [|c s]; simpl; try reflexivity.
  now rewrite IH.
Qed.

Lemma allDigits_append (a b : string) :
  allDigits (a ++ b) = allDigits a && allDigits b.
Proof.
  induction a as [|x a IH]; simpl; [reflexivity|].
  rewrite IH. now rewrite andb_assoc.
Qed.

Lemma allDigits_take (n : nat) (s : string) :
  allDigits s = true -> allDigits (take n s) = true.
Proof.
  revert s; induction n as [|n IH]; intros [|c s] H; simpl in *; try reflexivity.
  apply andb_true_iff in H as [Hc Hs]. rewrite Hc. simpl. now apply IH.
Qed.

Lemma allDigits_drop (n : nat) (s : string) :
  allDigits s = true -> allDigits (drop n s) = true.
Proof.
  revert s; induction n as [|n IH]; intros [|c s] H; simpl in *; try assumption.
  apply andb_true_iff in H as [_ Hs]. now apply IH.
Qed.

Lemma allDigits_zeros (n : nat) : allDigits (zeros n) = true.
Proof. induction n as [|n IH]; simpl; [reflexivity | assumption]. Qed.

Lemma allDigits_onlyNumbers (s : string) : allDigits (onlyNumbers s) = true.
Proof.
  induction s as [|c s IH]; simpl; [reflexivity|].
  destruct (isDigit c) eqn:E; simpl; [now rewrite E | assumption].
Qed.

Lemma onlyNumbers_allDigits (s : string) : allDigits s = true -> onlyNumbers s = s.
Proof.
  induction s as [|c s IH]; simpl; intros H; [reflexivity|].
  apply andb_true_iff in H as [Hc Hs]. rewrite Hc. now rewrite IH.
Qed.

Lemma onlyNumbers_append (a b : string) :
  onlyNumbers (a ++ b) = onlyNumbers a ++ onlyNumbers b.
Proof.
  induction a as [|x a IH]; simpl; [reflexivity|].
  destruct (isDigit x); simpl; now rewrite IH.
Qed.

Lemma isDigit_range (c : ascii) :
  isDigit c = true -> 0 <= digitValue c <= 9.
Proof.
  unfold isDigit, digitValue. intros H.
  apply andb_true_iff in H as [H1 H2].
  apply Nat.leb_le in H1. apply Nat.leb_le in H2. lia.
Qed.

End StringFacts.

(** ** Regular expressions: the derivative matcher decides [matches] *)

Section RegexFacts.

Lemma nullable_matches (r : regex) : nullable r = true <-> matches r "".
Proof.
  split.
  - induction r; simpl; intros H; try discriminate.
    + constructor.
    + apply andb_true_iff in H as [H1 H2].
      change "" with ("" ++ ""). constructor; auto.
    + apply orb_true_iff in H as [H|H]; [apply MAltL | apply MAltR]; auto.
    + constructor.
  - intros H. remember "" as s eqn:Es.
    induction H; simpl; try reflexivity; try discriminate.
    + apply append_eq_empty in Es as [-> ->].
      rewrite IHmatches1, IHmatches2; reflexivity.
    + rewrite IHmatches by assumption. reflexivity.
    + rewrite IHmatches by assumption. apply orb_true_r.
Qed.

Lemma matches_star_cons (r : regex) (c : ascii) (s : string) :
  matches (Star r) (String c s) ->
  exists s1 s2, s = s1 ++ s2 /\ matches r (String c s1) /\ matches (Star r) s2.
Proof.
  intros H. remember (Star r) as r' eqn:Er. remember (String c s) as t eqn:Et.
  induction H; try discriminate.
  injection Er as ->.
  destruct s1 as [|c1 s1]; simpl in Et.
  - apply IHmatches2; auto.
  - injection Et as -> <-. exists s1, s2. auto.
Qed.

Lemma deriv_sound (c : ascii) (r : regex) :
  forall s, matches (deriv c r) s -> matches r (String c s).
Proof.
  induction r; simpl; intros s H.
  - inversion H.
  - inversion H.
  - destruct (p c) eqn:E; inversion H; subst. now apply (MClass p c).
  - destruct (nullable r1) eqn:N.
    + inversion H; subst.
      * match goal with M : matches (Seq _ _) _ |- _ => inversion M; subst end.
        change (String c (s1 ++ s2)) with (String c s1 ++ s2).
        constructor; auto.
      * change (String c s) with ("" ++ String c s).
        constructor; [now apply nullable_matches | auto].
    + inversion H; subst.
      change (String c (s1 ++ s2)) with (String c s1 ++ s2).
      constructor; auto.
  - inversion H; subst; [apply MAltL | apply MAltR]; auto.
  - inversion H; subst.
    change (String c (s1 ++ s2)) with (String c s1 ++ s2).
    constructor; auto.
Qed.

Lemma deriv_complete (c : ascii) (r : regex) :
  forall s, matches r (String c s) -> matches (deriv c r) s.
Proof.
  induction r; simpl; intros s H.
  - inversion H.
  - inversion H.
  - inversion H; subst.
    match goal with E : p _ = true |- _ => rewrite E end. constructor.
  - inversion H; subst.
    destruct s1 as [|c1 s1]; simpl in *.
    + subst s2.
      assert (N : nullable r1 = true) by now apply nullable_matches.
      rewrite N. apply MAltR. auto.
    + match goal with E : String _ _ = String _ _ |- _ => injection E as -> <- end.
      destruct (nullable r1); [apply MAltL|]; constructor; auto.
  - inversion H; subst; [apply MAltL | apply MAltR]; auto.
  - apply matches_star_cons in H as (s1 & s2 & -> & H1 & H2).
    constructor; auto.
Qed.

Lemma test_matches (r : regex) (s : string) : test r s = true <-> matches r s.
Proof.
  revert r; induction s as [|c s IH]; intros r; simpl.
  - apply nullable_matches.
  - rewrite IH. split; [apply deriv_sound | apply deriv_complete].
Qed.

Lemma matches_star_digits (s : string) :
  matches (Star Digit) s <-> allDigits s = true.
Proof.
  split.
  - intros H. remember (Star Digit) as r eqn:Er.
    induction H; try discriminate; [reflexivity|].
    injection Er as ->. rewrite allDigits_append.
    rewrite IHmatches2 by reflexivity.
    inversion H; subst. simpl.
    match goal with E : isDigit _ = true |- _ => now rewrite E end.
  - induction s as [|c s IH]; simpl; intros H; [constructor|].
    apply andb_true_iff in H as [Hc Hs].
    change (String c s) with (str c ++ s).
    constructor; [now constructor | auto].
Qed.

Lemma matches_plus_digits (s : string) :
  matches (Plus Digit) s <-> allDigits s = true /\ s <> "".
Proof.
  unfold Plus. split.
  - intros H. inversion H as [| | r1 r2 s1 s2 H1 H2 | | | |]; subst.
    inversion H1 as [|p c Hc | | | | |]; subst.
    apply matches_star_digits in H2.
    simpl. rewrite Hc, H2. split; [reflexivity | discriminate].
  - intros [H Hne]. destruct s as [|c s]; [congruence|].
    simpl in H. apply andb_true_iff in H as [Hc Hs].
    change (String c s) with (str c ++ s).
    constructor; [now constructor | now apply matches_star_digits].
Qed.

End RegexFacts.

(** ** The positional formatters *)

Section FormatFacts.

Lemma reduceFrom_ext {A B} (f g : B -> A -> Z -> B) (l : list A) :
  (forall acc x j, f acc x j = g acc x j) ->
  forall acc i, reduceFrom f l acc i = reduceFrom g l acc i.
Proof.
  intros E. induction l as [|x l IH]; intros acc i; simpl; [reflexivity|].
  rewrite E. apply IH.
Qed.

Lemma reduceFrom_weave (sep : Z -> string) (l : list ascii) :
  forall acc i,
    reduceFrom (fun acc d j => appendDigit acc d ++ sep j) l acc i = acc ++ weave sep l i.
Proof.
  induction l as [|d l IH]; intros acc i; simpl.
  - now rewrite append_empty_r.
  - rewrite IH. unfold appendDigit, str.
    rewrite !append_assoc. reflexivity.
Qed.

Lemma onlyNumbers_weave (sep : Z -> string) (l : list ascii) :
  (forall j, onlyNumbers (sep j) = "") ->
  forall i, onlyNumbers (weave sep l i) = onlyNumbers (join l).
Proof.
  intros Hsep. induction l as [|d l IH]; intros i; simpl; [reflexivity|].
  rewrite onlyNumbers_append, Hsep, IH. reflexivity.
Qed.

Lemma weave_ext_range (sep1 sep2 : Z -> string) (l : list ascii) :
  forall i,
    (forall j, i <= j < i + Z.of_nat (List.length l) -> sep1 j = sep2 j) ->
    weave sep1 l i = weave sep2 l i.
Proof.
  induction l as [|d l IH]; intros i H; simpl; [reflexivity|].
  rewrite (H i) by (simpl List.length; lia).
  rewrite IH; [reflexivity|].
  intros j Hj. apply H. simpl List.length. lia.
Qed.

(** What each [format] computes, as a weave of its digits. *)
Lemma format_as_weave (step : string -> ascii -> Z -> string)
      (ref : string) (sepAt : Z -> string) (l : list ascii) :
  (forall acc d j, step acc d j = appendDigit acc d ++ separatorAfter ref sepAt j) ->
  reduce step l "" = weave (separatorAfter ref sepAt) l 0.
Proof.
  intros E. unfold reduce.
  rewrite (reduceFrom_ext _ _ _ E), reduceFrom_weave. reflexivity.
Qed.

Lemma indexOfFrom_found (l : list Z) (x : Z) :
  forall k, 0 <= k -> (0 <=? indexOfFrom l x k) = existsb (Z.eqb x) l.
Proof.
  induction l as [|y l IH]; intros k Hk; simpl.
  - reflexivity.
  - rewrite (Z.eqb_sym x y). destruct (y =? x).
    + simpl. apply Z.leb_le. assumption.
    + simpl. apply IH. lia.
Qed.

Lemma indexOf_found (l : list Z) (x : Z) :
  (0 <=? indexOf l x) = existsb (Z.eqb x) l.
Proof. apply indexOfFrom_found. lia. Qed.

Ltac step_cases :=
  intros; unfold separatorAfter;
  match goal with |- context [isLastChar ?j ?r] => destruct (isLastChar j r) end;
  cbn [negb]; [now rewrite append_empty_r|];
  rewrite ?indexOf_found; unfold includes; cbn [existsb];
  repeat match goal with
         | |- context [Z.eqb ?a ?b] => destruct (Z.eqb a b); cbn [orb]
         end;
  try reflexivity; now rewrite append_empty_r.

Lemma cpf_format_weave (cpf : JsValue) (options : Cpf.FormatCpfOptions) :
  let digits := if Cpf.pad options then padStart0 Cpf.LENGTH (onlyNumbersOf cpf)
                else onlyNumbersOf cpf in
  Cpf.format cpf options
  = weave (separatorAfter digits cpfSeparators) (chars (take Cpf.LENGTH digits)) 0.
Proof.
  intros digits. unfold Cpf.format. fold digits.
  apply format_as_weave. unfold cpfSeparators, Cpf.DOT_INDEXES, Cpf.HYPHEN_INDEXES.
  step_cases.
Qed.

Lemma cnpj_format_weave (cnpj : JsValue) (options : Cnpj.FormatCnpjOptions) :
  let digits := if Cnpj.pad options then padStart0 Cnpj.LENGTH (onlyNumbersOf cnpj)
                else onlyNumbersOf cnpj in
  Cnpj.format cnpj options
  = weave (separatorAfter digits cnpjSeparators) (chars (take Cnpj.LENGTH digits)) 0.
Proof.
  intros digits. unfold Cnpj.format. fold digits.
  apply format_as_weave.
  unfold cnpjSeparators, Cnpj.DOT_INDEXES, Cnpj.SLASH_INDEXES, Cnpj.HYPHEN_INDEXES.
  step_cases.
Qed.

Lemma cep_format_weave (cep : string) :
  let digits := onlyNumbers cep in
  Cep.format cep = weave (separatorAfter digits cepSeparators) (chars (take Cep.LENGTH digits)) 0.
Proof.
  intros digits. unfold Cep.format. fold digits.
  apply format_as_weave. unfold cepSeparators, Cep.HYPHEN_INDEXES.
  step_cases.
Qed.

Lemma boleto_format_weave (boleto : string) :
  let digits := onlyNumbers boleto in
  Boleto.format boleto
  = weave (separatorAfter digits boletoSeparators) (chars (take Boleto.LENGTH digits)) 0.
Proof.
  intros digits. unfold Boleto.format. fold digits.
  apply format_as_weave. unfold boletoSeparators, Boleto.DOT_INDEXES, Boleto.SPACE_INDEXES.
  step_cases.
Qed.

Lemma processo_format_weave (processoJuridico : string) :
  let digits := onlyNumbers processoJuridico in
  ProcessoJuridico.format processoJuridico
  = weave (separatorAfter processoJuridico processoSeparators)
          (chars (take ProcessoJuridico.LENGTH digits)) 0.
Proof.
  intros digits. unfold ProcessoJuridico.format. fold digits.
  apply format_as_weave.
  unfold processoSeparators, ProcessoJuridico.DOT_INDEXES, ProcessoJuridico.HYPHEN_INDEXES.
  step_cases.
Qed.

End FormatFacts.

Section FormatTheorems.

Lemma onlyNumbers_separatorAfter (ref : string) (sepAt : Z -> string) :
  (forall j, onlyNumbers (sepAt j) = "") ->
  forall j, onlyNumbers (separatorAfter ref sepAt j) = "".
Proof.
  intros H j. unfold separatorAfter. destruct (isLastChar j ref); [reflexivity | apply H].
Qed.

Lemma strip_weave (ref : string) (sepAt : Z -> string) (n : nat) (digits : string) :
  (forall j, onlyNumbers (sepAt j) = "") ->
  allDigits digits = true ->
  onlyNumbers (weave (separatorAfter ref sepAt) (chars (take n digits)) 0) = take n digits.
Proof.
  intros Hsep Hd.
  rewrite onlyNumbers_weave by now apply onlyNumbers_separatorAfter.
  rewrite join_chars. apply onlyNumbers_allDigits. now apply allDigits_take.
Qed.

Lemma allDigits_padStart0 (n : nat) (s : string) :
  allDigits s = true -> allDigits (padStart0 n s) = true.
Proof.
  intros H. unfold padStart0. rewrite allDigits_append, allDigits_zeros, H. reflexivity.
Qed.

Ltac table_cases :=
  intros j;
  repeat match goal with
         | |- context [Z.eqb ?a ?b] => destruct (Z.eqb_spec a b); cbn [orb]
         end;
  try reflexivity; try lia.

Lemma cpfSeparators_strip j : onlyNumbers (cpfSeparators j) = "".
Proof. revert j. unfold cpfSeparators. table_cases. Qed.

Lemma cnpjSeparators_strip j : onlyNumbers (cnpjSeparators j) = "".
Proof. revert j. unfold cnpjSeparators. table_cases. Qed.

Lemma cepSeparators_strip j : onlyNumbers (cepSeparators j) = "".
Proof. revert j. unfold cepSeparators. table_cases. Qed.

Lemma boletoSeparators_strip j : onlyNumbers (boletoSeparators j) = "".
Proof. revert j. unfold boletoSeparators. table_cases. Qed.

Lemma processoSeparators_strip j : onlyNumbers (processoSeparators j) = "".
Proof. revert j. unfold processoSeparators. table_cases. Qed.

(** C4. Stripping every character that is not a digit from what [format]
    returns gives back the digits of the input, left-padded with zeros
    when [pad] is set, and cut to the length of the identifier: for CPF,
    CNPJ, CEP, boleto and processo jurídico. *)
Theorem format_then_strip_roundtrip (s : string) (pad : bool) :
  let padded n := if pad then padStart0 n (onlyNumbers s) else onlyNumbers s in
  onlyNumbers (Cpf.format (VString s) {| Cpf.pad := pad |})
  = take Cpf.LENGTH (padded Cpf.LENGTH)
  /\ onlyNumbers (Cnpj.format (VString s) {| Cnpj.pad := pad |})
     = take Cnpj.LENGTH (padded Cnpj.LENGTH)
  /\ onlyNumbers (Cep.format s) = take Cep.LENGTH (onlyNumbers s)
  /\ onlyNumbers (Boleto.format s) = take Boleto.LENGTH (onlyNumbers s)
  /\ onlyNumbers (ProcessoJuridico.format s)
     = take ProcessoJuridico.LENGTH (onlyNumbers s).
Proof.
  intros padded.
  assert (Hp : forall n, allDigits (padded n) = true).
  { intros n. unfold padded. destruct pad.
    - apply allDigits_padStart0, allDigits_onlyNumbers.
    - apply allDigits_onlyNumbers. }
  repeat split.
  - rewrite cpf_format_weave. cbn [Cpf.pad onlyNumbersOf toString].
    apply (strip_weave _ _ _ (padded Cpf.LENGTH) cpfSeparators_strip (Hp _)).
  - rewrite cnpj_format_weave. cbn [Cnpj.pad onlyNumbersOf toString].
    apply (strip_weave _ _ _ (padded Cnpj.LENGTH) cnpjSeparators_strip (Hp _)).
  - rewrite cep_format_weave.
    apply strip_weave; [apply cepSeparators_strip | apply allDigits_onlyNumbers].
  - rewrite boleto_format_weave.
    apply strip_weave; [apply boletoSeparators_strip | apply allDigits_onlyNumbers].
  - rewrite processo_format_weave.
    apply strip_weave; [apply processoSeparators_strip | apply allDigits_onlyNumbers].
Qed.

(** The code tests the last character of the whole digit string, the
    documentation that of the truncated one: the two agree because no
    table has an entry at the last position of a full-length identifier
    or beyond it. *)
Lemma weave_positionalFormat (sepAt : Z -> string) (n : nat) (digits : string) :
  (forall j, Z.of_nat n - 1 <= j -> sepAt j = "") ->
  weave (separatorAfter digits sepAt) (chars (take n digits)) 0
  = positionalFormat sepAt n digits.
Proof.
  intros Htable. unfold positionalFormat.
  apply weave_ext_range. intros j Hj.
  rewrite length_chars, length_take in Hj.
  unfold separatorAfter, isLastChar. rewrite length_take.
  destruct (Z.eqb_spec j (Z.of_nat (String.length digits) - 1)) as [E|E];
    destruct (Z.eqb_spec j (Z.of_nat (Nat.min n (String.length digits)) - 1)) as [F|F];
    try reflexivity.
  - lia.
  - apply Htable. lia.
Qed.

Ltac table_bound :=
  intros j Hj; cbv beta delta [Cpf.LENGTH Cnpj.LENGTH Cep.LENGTH Boleto.LENGTH
                               ProcessoJuridico.LENGTH] in Hj;
  repeat match goal with
         | |- context [Z.eqb ?a ?b] => destruct (Z.eqb_spec a b); cbn [orb]
         end;
  try reflexivity; lia.

(** The formatters of CPF, CNPJ, CEP and boleto are the positional
    formatter of the documentation, each with its table. *)
Lemma formatters_follow_tables (s : string) (pad : bool) :
  let padded n := if pad then padStart0 n (onlyNumbers s) else onlyNumbers s in
  Cpf.format (VString s) {| Cpf.pad := pad |}
  = positionalFormat cpfSeparators Cpf.LENGTH (padded Cpf.LENGTH)
  /\ Cnpj.format (VString s) {| Cnpj.pad := pad |}
     = positionalFormat cnpjSeparators Cnpj.LENGTH (padded Cnpj.LENGTH)
  /\ Cep.format s = positionalFormat cepSeparators Cep.LENGTH (onlyNumbers s)
  /\ Boleto.format s = positionalFormat boletoSeparators Boleto.LENGTH (onlyNumbers s).
Proof.
  intros padded. repeat split.
  - rewrite cpf_format_weave. cbn [Cpf.pad onlyNumbersOf toString].
    apply weave_positionalFormat. unfold cpfSeparators. table_bound.
  - rewrite cnpj_format_weave. cbn [Cnpj.pad onlyNumbersOf toString].
    apply weave_positionalFormat. unfold cnpjSeparators. table_bound.
  - rewrite cep_format_weave.
    apply weave_positionalFormat. unfold cepSeparators. table_bound.
  - rewrite boleto_format_weave.
    apply weave_positionalFormat. unfold boletoSeparators. table_bound.
Qed.

(** So is the formatter of the processo jurídico when its argument holds
    digits only. *)
Lemma processo_format_of_digits (s : string) :
  allDigits s = true ->
  ProcessoJuridico.format s
  = positionalFormat processoSeparators ProcessoJuridico.LENGTH s.
Proof.
  intros H. rewrite processo_format_weave.
  rewrite (onlyNumbers_allDigits _ H).
  apply weave_positionalFormat. unfold processoSeparators. table_bound.
Qed.

(** C3. The formatter of the processo jurídico tests the last character
    against its argument instead of the digits: on [1234567-89] it leaves
    the dot after the last digit, where the positional formatter of the
    documentation, like the four other formatters, ends on the digit. *)
Theorem processo_format_trailing_separator :
  ProcessoJuridico.format "1234567-89" = "1234567-89."
  /\ positionalFormat processoSeparators ProcessoJuridico.LENGTH
                      (onlyNumbers "1234567-89") = "1234567-89"
  /\ Cpf.format (VString "123.45") {| Cpf.pad := false |} = "123.45".
Proof. repeat split; vm_compute; reflexivity. Qed.

End FormatTheorems.


(** ** Numbers read from digits *)

Section NumberFacts.

Lemma isDigit_not_blank (c : ascii) : isDigit c = true -> isWhiteSpace c = false.
Proof.
  unfold isDigit, isWhiteSpace. intros H.
  apply andb_true_iff in H as [H1 _]. apply Nat.leb_le in H1.
  apply orb_false_iff; split.
  - apply andb_false_iff; right. apply Nat.leb_gt. lia.
  - apply Nat.eqb_neq. lia.
Qed.

Lemma toNumber_digits (s : string) :
  allDigits s = true -> s <> "" -> toNumber s = Some (decimalFrom 0 s).
Proof.
  intros H Hne. unfold toNumber. rewrite H.
  destruct s as [|c s]; [congruence|].
  simpl in H. apply andb_true_iff in H as [Hc _].
  simpl. rewrite (isDigit_not_blank _ Hc). reflexivity.
Qed.

Lemma toNumber_digit (c : ascii) :
  isDigit c = true -> toNumber (str c) = Some (digitValue c).
Proof.
  intros H. rewrite toNumber_digits.
  - reflexivity.
  - simpl. now rewrite H.
  - discriminate.
Qed.

Lemma parseInt_digit (c : ascii) :
  isDigit c = true -> parseInt (str c) = Some (digitValue c).
Proof. intros H. unfold parseInt, str. simpl. rewrite H. reflexivity. Qed.

Lemma decimalFrom_acc (s : string) :
  forall a, decimalFrom a s = a * 10 ^ Z.of_nat (String.length s) + decimalFrom 0 s.
Proof.
  induction s as [|c s IH]; intros a.
  - simpl. lia.
  - cbn [decimalFrom String.length]. rewrite IH, (IH (10 * 0 + digitValue c)).
    rewrite Nat2Z.inj_succ, Z.pow_succ_r by lia. ring.
Qed.

Lemma decimalFrom_append (a b : string) :
  decimalFrom 0 (a ++ b)
  = decimalFrom 0 a * 10 ^ Z.of_nat (String.length b) + decimalFrom 0 b.
Proof.
  assert (G : forall x, decimalFrom x (a ++ b) = decimalFrom (decimalFrom x a) b).
  { induction a as [|c a IH]; intros x; simpl; [reflexivity | apply IH]. }
  rewrite G. apply decimalFrom_acc.
Qed.

Lemma decimalFrom_nonneg (s : string) :
  allDigits s = true -> forall a, 0 <= a -> 0 <= decimalFrom a s.
Proof.
  induction s as [|c s IH]; cbn [decimalFrom allDigits]; intros H a Ha; [assumption|].
  apply andb_true_iff in H as [Hc Hs]. apply IH; [assumption|].
  pose proof (isDigit_range _ Hc). lia.
Qed.

Lemma allDigits_chars (s : string) :
  allDigits s = true <-> Forall (fun c => isDigit c = true) (chars s).
Proof.
  induction s as [|c s IH]; simpl; split; intros H.
  - constructor.
  - reflexivity.
  - apply andb_true_iff in H as [Hc Hs]. constructor; [assumption | now apply IH].
  - inversion H; subst. apply andb_true_iff. split; [assumption | now apply IH].
Qed.

End NumberFacts.

(** ** Processo jurídico: the check digits *)

Section ProcessoFacts.

(** The sum of digits times descending powers of ten is the decimal value:
    [k] is the exponent of the first position of the whole array. *)
Lemma reduce_powers_of_ten (k : Z) (l : list ascii) :
  Forall (fun c => isDigit c = true) l ->
  forall a i,
    0 <= k - i - Z.of_nat (List.length l) + 1 ->
    reduceFrom (fun acc digit index =>
                  add acc (mul (toNumber (str digit)) (ProcessoJuridico.pow10 (k - index))))
               l (Some a) i
    = Some (a + decimalFrom 0 (join l) * 10 ^ (k - i - Z.of_nat (List.length l) + 1)).
Proof.
  induction 1 as [|c l Hc Hl IH]; intros a i Hk.
  - simpl. f_equal. lia.
  - cbn [reduceFrom]. rewrite (toNumber_digit _ Hc).
    cbn [List.length] in Hk. rewrite Nat2Z.inj_succ in Hk.
    assert (Hstep : add (Some a) (mul (Some (digitValue c)) (ProcessoJuridico.pow10 (k - i)))
                    = Some (a + digitValue c * 10 ^ (k - i))).
    { unfold ProcessoJuridico.pow10.
      destruct (Z.ltb_spec (k - i) 0) as [Hlt|_]; [lia | reflexivity]. }
    rewrite Hstep, IH by lia.
    f_equal. cbn [List.length]. rewrite Nat2Z.inj_succ.
    change (join (c :: l)) with (String c (join l)).
    cbn [decimalFrom].
    rewrite (decimalFrom_acc (join l) (10 * 0 + digitValue c)).
    assert (Hlen : String.length (join l) = List.length l).
    { rewrite <- length_chars, chars_join. reflexivity. }
    rewrite Hlen.
    replace (k - (i + 1) - Z.of_nat (List.length l) + 1)
      with (k - i - Z.succ (Z.of_nat (List.length l)) + 1) by lia.
    set (e := k - i - Z.succ (Z.of_nat (List.length l)) + 1) in *.
    replace (k - i) with (Z.of_nat (List.length l) + e) by (unfold e; lia).
    rewrite Z.pow_add_r by lia. ring.
Qed.

Lemma mod97_two_steps (A B : Z) :
  0 <= A -> 0 <= B ->
  Z.rem (Z.rem A 97 * 1000000000 + B * 100) 97 = ((A * 10 ^ 7 + B) * 100) mod 97.
Proof.
  intros HA HB.
  rewrite (Z.rem_mod_nonneg A 97) by lia.
  pose proof (Z.mod_pos_bound A 97 ltac:(lia)).
  rewrite Z.rem_mod_nonneg by lia.
  replace ((A * 10 ^ 7 + B) * 100) with (A * 1000000000 + B * 100)
    by (change (10 ^ 7) with 10000000; ring).
  rewrite (Z.add_mod (A * 1000000000)) by lia.
  rewrite <- (Z.mul_mod_idemp_l A) by lia.
  rewrite <- Z.add_mod by lia. reflexivity.
Qed.

(** C5. On a string of 20 digits, [verifyDigit] holds exactly when the two
    digits at positions 7 and 8 read as 98 - ((N * 100) mod 97), where N
    is the number the 18 other digits read as, in order: the two
    remainders the code takes in turn amount to the one remainder of the
    whole number. *)
Theorem verifyDigit_is_mod97 (processo : string)
        (Hlen : String.length processo = 20%nat)
        (Hdigits : allDigits processo = true) :
  ProcessoJuridico.verifyDigit processo
  = (decimalFrom 0 (slice 7 9 processo)
     =? mod97CheckDigits (decimalFrom 0 (take 7 processo ++ drop 9 processo))).
Proof.
  unfold ProcessoJuridico.verifyDigit, ProcessoJuridico.splice.
  unfold ProcessoJuridico.CHECK_DIGIT_START_POSITION, ProcessoJuridico.CHECK_DIGIT_LENGTH.
  change (7 + 2)%nat with 9%nat.
  set (rest := take 7 processo ++ drop 9 processo).
  replace (firstn 2 (skipn 7 (chars processo))) with (chars (slice 7 9 processo))
    by (unfold slice; rewrite chars_take, chars_drop; reflexivity).
  replace (firstn 7 (chars processo) ++ skipn 9 (chars processo))%list with (chars rest)
    by (unfold rest; rewrite chars_append, chars_take, chars_drop; reflexivity).
  assert (Hrest : allDigits rest = true).
  { unfold rest. rewrite allDigits_append, allDigits_take, allDigits_drop by assumption.
    reflexivity. }
  assert (Lrest : String.length rest = 18%nat).
  { unfold rest. rewrite length_append, length_take, length_drop, Hlen. reflexivity. }
  rewrite <- chars_take, <- chars_drop.
  unfold reduce.
  rewrite (reduce_powers_of_ten 10), (reduce_powers_of_ten 6);
    rewrite ?length_chars, ?length_take, ?length_drop, ?Lrest;
    try (apply allDigits_chars; auto using allDigits_take, allDigits_drop);
    try (simpl; lia).
  rewrite !join_chars.
  change (10 - 0 - Z.of_nat (Nat.min 11 18) + 1) with 0.
  change (6 - 0 - Z.of_nat (18 - 11) + 1) with 0.
  rewrite !Z.pow_0_r, !Z.mul_1_r, !Z.add_0_l.
  set (A := decimalFrom 0 (take 11 rest)).
  set (B := decimalFrom 0 (drop 11 rest)).
  assert (HA : 0 <= A) by (apply decimalFrom_nonneg; auto using allDigits_take; lia).
  assert (HB : 0 <= B) by (apply decimalFrom_nonneg; auto using allDigits_drop; lia).
  assert (HN : decimalFrom 0 rest = A * 10 ^ 7 + B).
  { rewrite <- (take_drop 11 rest) at 1. rewrite decimalFrom_append.
    rewrite length_drop, Lrest. reflexivity. }
  rewrite toNumber_digits.
  - unfold ProcessoJuridico.MOD_97_10_QUOCIENT, ProcessoJuridico.MOD_97_10_SUM.
    cbn [rem mul add sub lift2 numEq Z.eqb].
    change (97 =? 0) with false. cbv iota.
    cbn [rem mul add sub lift2 numEq].
    change (97 =? 0) with false. cbv iota.
    cbn [sub lift2 numEq].
    rewrite mod97_two_steps by assumption.
    unfold mod97CheckDigits. rewrite HN.
    apply Z.eqb_sym.
  - unfold slice. apply allDigits_take. now apply allDigits_drop.
  - intros E. apply (f_equal String.length) in E. unfold slice in E.
    rewrite length_take, length_drop, Hlen in E. discriminate.
Qed.

Lemma verifyDigit_is_mod97_witness :
  ProcessoJuridico.verifyDigit "00020802520125150049"
  = (decimalFrom 0 (slice 7 9 "00020802520125150049")
     =? mod97CheckDigits
          (decimalFrom 0 (take 7 "00020802520125150049" ++ drop 9 "00020802520125150049"))).
Proof.
  apply (verifyDigit_is_mod97 "00020802520125150049"); reflexivity.
Defined.

End ProcessoFacts.


(** ** Weighted checksums *)

Section ChecksumFacts.

Lemma skipn_nth_error {A} (l : list A) :
  forall k x, nth_error l k = Some x -> skipn k l = x :: skipn (S k) l.
Proof.
  induction l as [|y l IH]; intros [|k] x H; simpl in *; try discriminate.
  - now injection H as ->.
  - now apply IH.
Qed.

Lemma nthNumber_of_nat (ws : list Z) (k : nat) :
  nthNumber ws (Z.of_nat k) = nth_error ws k.
Proof.
  unfold nthNumber. destruct (Z.ltb_spec (Z.of_nat k) 0); [lia|].
  now rewrite Nat2Z.id.
Qed.

(** With a table of weights, the checksum is the weighted sum of the
    digits, as long as the table has a weight for each of them. *)
Lemma reduce_table_weights (ws : list Z) (l : list ascii) :
  Forall (fun c => isDigit c = true) l ->
  forall a k,
    (List.length l + k <= List.length ws)%nat ->
    reduceFrom (fun acc digit i =>
                  add acc (mul (parseInt (str digit)) (nthNumber ws i)))
               l (Some a) (Z.of_nat k)
    = Some (a + weightedSum (skipn k ws) (map digitValue l)).
Proof.
  induction 1 as [|c l Hc Hl IH]; intros a k Hk.
  - cbn [reduceFrom map]. destruct (skipn k ws); cbn [weightedSum]; f_equal; lia.
  - cbn [reduceFrom]. cbn [List.length] in Hk.
    destruct (nth_error ws k) as [w|] eqn:E.
    2:{ apply nth_error_None in E. lia. }
    rewrite (parseInt_digit _ Hc), nthNumber_of_nat, E.
    cbn [mul add lift2].
    replace (Z.of_nat k + 1) with (Z.of_nat (S k)) by lia.
    rewrite IH by lia.
    rewrite (skipn_nth_error _ _ _ E). cbn [map weightedSum]. f_equal. lia.
Qed.

Lemma generateChecksum_table (ws : list Z) (base : string) :
  allDigits base = true ->
  (String.length base <= List.length ws)%nat ->
  generateChecksum base (WTable ws) = Some (weightedSum ws (digitsOf base)).
Proof.
  intros Hd Hl. unfold generateChecksum, reduce.
  rewrite (onlyNumbers_allDigits _ Hd).
  change 0 with (Z.of_nat 0) at 2.
  rewrite (reduce_table_weights ws (chars base)).
  - reflexivity.
  - now apply allDigits_chars.
  - rewrite length_chars. lia.
Qed.

Lemma weightedSum_nonneg (ws ds : list Z) :
  Forall (fun w => 0 <= w) ws -> Forall (fun d => 0 <= d) ds ->
  0 <= weightedSum ws ds.
Proof.
  intros Hw. revert ds. induction Hw as [|w ws Hw0 Hws IH]; intros ds Hd.
  - simpl. lia.
  - destruct Hd as [|d ds Hd0 Hds]; cbn [weightedSum]; [lia|].
    specialize (IH _ Hds). nia.
Qed.

Lemma digitsOf_nonneg (s : string) :
  allDigits s = true -> Forall (fun d => 0 <= d) (digitsOf s).
Proof.
  intros H. apply allDigits_chars in H. unfold digitsOf.
  induction H as [|c l Hc Hl IH]; cbn [map]; constructor; [|assumption].
  pose proof (isDigit_range _ Hc). lia.
Qed.

End ChecksumFacts.

(** ** PIS *)

Section PisFacts.

Lemma hasOnlyNumbers_allDigits (s : string) :
  Pis.hasOnlyNumbers s = true <-> allDigits s = true /\ s <> "".
Proof.
  unfold Pis.hasOnlyNumbers. rewrite test_matches. apply matches_plus_digits.
Qed.

Lemma drop_nth_digit (s : string) (k : nat) :
  allDigits s = true -> (k < String.length s)%nat ->
  exists c, take 1 (drop k s) = str c /\ isDigit c = true
            /\ nth k (digitsOf s) 0 = digitValue c.
Proof.
  revert k. induction s as [|c s IH]; intros k Hd Hk; cbn [String.length] in Hk; [lia|].
  cbn [allDigits] in Hd. apply andb_true_iff in Hd as [Hc Hs].
  destruct k as [|k].
  - exists c. cbn [drop take]. destruct s; auto.
  - cbn [drop]. destruct (IH k Hs ltac:(lia)) as (d & E1 & E2 & E3).
    exists d. auto.
Qed.

(** C6. For a PIS of 11 digits that is not a reserved number, with S the
    weighted sum of its first 10 digits and 11 - (S mod 11) the calculated
    digit: when the calculated digit is 10 or 11, [isValid] holds exactly
    when the 11th digit is 0; otherwise exactly when the 11th digit is
    the calculated digit. *)
Theorem pis_isValid_check_digit (pis : string)
        (Hlen : String.length (Pis.removeSeparators pis) = 11%nat)
        (Hdigits : allDigits (Pis.removeSeparators pis) = true)
        (Hfree : Pis.isReservedNumber (Pis.removeSeparators pis) = false) :
  let numeric := Pis.removeSeparators pis in
  let S := weightedSum Pis.WEIGHTS (digitsOf (take 10 numeric)) in
  let calculatedDigit := 11 - S mod 11 in
  let verifyingDigit := nth 10 (digitsOf numeric) 0 in
  Pis.isValid (VString pis)
  = if (calculatedDigit =? 10) || (calculatedDigit =? 11)
    then verifyingDigit =? 0
    else verifyingDigit =? calculatedDigit.
Proof.
  intros numeric S calculatedDigit verifyingDigit.
  assert (Hne : numeric <> "").
  { intros E. unfold numeric in E. rewrite E in Hlen. discriminate. }
  assert (Hpis : pis <> "").
  { intros E. apply Hne. unfold numeric. rewrite E. reflexivity. }
  change (String.length numeric = 11%nat) in Hlen.
  change (allDigits numeric = true) in Hdigits.
  change (Pis.isReservedNumber numeric = false) in Hfree.
  unfold Pis.isValid. cbn [truthy].
  apply String.eqb_neq in Hpis. rewrite Hpis. cbn [negb].
  change (Pis.removeSeparators pis) with numeric.
  assert (H1 : Pis.isValidLength numeric = true).
  { unfold Pis.isValidLength. rewrite Hlen. reflexivity. }
  assert (H2 : Pis.hasOnlyNumbers numeric = true)
    by (apply hasOnlyNumbers_allDigits; auto).
  rewrite H1, H2, Hfree. cbn [negb orb].
  rewrite Hlen.
  change (Z.of_nat 11 - 1) with 10.
  unfold substr, charAt. change (10 <? 0) with false. cbv iota.
  change (Z.to_nat 10) with 10%nat.
  replace (drop 0 numeric) with numeric by (destruct numeric; reflexivity).
  rewrite generateChecksum_table.
  2:{ now apply allDigits_take. }
  2:{ rewrite length_take. change (List.length Pis.WEIGHTS) with 10%nat. lia. }
  fold S.
  destruct (drop_nth_digit numeric 10 Hdigits) as (c & E1 & Hc & E2).
  { rewrite Hlen. lia. }
  rewrite E1, (toNumber_digit _ Hc). fold verifyingDigit in E2. rewrite <- E2.
  assert (HS : 0 <= S).
  { apply weightedSum_nonneg.
    - unfold Pis.WEIGHTS. repeat constructor; lia.
    - apply digitsOf_nonneg. now apply allDigits_take. }
  cbn [rem sub lift2 numEq]. change (11 =? 0) with false. cbv iota.
  cbn [sub lift2 numEq].
  rewrite (Z.rem_mod_nonneg S 11) by lia. fold calculatedDigit.
  pose proof (Z.mod_pos_bound S 11 ltac:(lia)) as Hb.
  pose proof (isDigit_range _ Hc) as Hv. rewrite <- E2 in Hv.
  assert (Hcalc : 1 <= calculatedDigit <= 11) by (unfold calculatedDigit; lia).
  clearbody calculatedDigit verifyingDigit.
  destruct (Z.eqb_spec calculatedDigit 10), (Z.eqb_spec calculatedDigit 11),
    (Z.eqb_spec calculatedDigit verifyingDigit), (Z.eqb_spec verifyingDigit 0),
    (Z.eqb_spec verifyingDigit calculatedDigit); cbn [orb andb]; try reflexivity; lia.
Qed.

Lemma pis_isValid_check_digit_witness :
  Pis.isValid (VString "120.56874.10-7")
  = let numeric := Pis.removeSeparators "120.56874.10-7" in
    let S := weightedSum Pis.WEIGHTS (digitsOf (take 10 numeric)) in
    let calculatedDigit := 11 - S mod 11 in
    let verifyingDigit := nth 10 (digitsOf numeric) 0 in
    if (calculatedDigit =? 10) || (calculatedDigit =? 11)
    then verifyingDigit =? 0
    else verifyingDigit =? calculatedDigit.
Proof.
  apply (pis_isValid_check_digit "120.56874.10-7"); reflexivity.
Defined.

End PisFacts.


(** ** Phone *)

Section PhoneFacts.

Lemma includes_In (l : list Z) (z : Z) : includes l (Some z) = true -> In z l.
Proof.
  unfold includes. intros H. apply existsb_exists in H as (y & Hy & E).
  apply Z.eqb_eq in E. now subst.
Qed.

Lemma first_number_digit (allowed : list Z) (digits : string) :
  allDigits digits = true -> (2 < String.length digits)%nat ->
  includes allowed (toNumber (charAt 2 digits)) = true ->
  In (nth 2 (digitsOf digits) 0) allowed.
Proof.
  intros Hd Hl H.
  destruct (drop_nth_digit digits 2 Hd Hl) as (c & E1 & Hc & E2).
  unfold charAt in H. change (2 <? 0) with false in H. cbv iota in H.
  change (Z.to_nat 2) with 2%nat in H.
  rewrite E1, (toNumber_digit _ Hc) in H. rewrite E2. now apply includes_In.
Qed.

(** C8. When [isValid] holds of a phone, the phone is a string with 10 or
    11 digits; with 10 digits the digit after the two of the area code is
    one of 2, 3, 4, 5, with 11 digits it is one of 6, 7, 8, 9. So a phone
    with any other number of digits is never valid. *)
Theorem phone_isValid_length_first_digit (tbl : Store) (phone : JsValue)
        (Hvalid : Phone.isValid tbl phone = true) :
  exists s, phone = VString s
            /\ let digits := onlyNumbers s in
               let firstNumber := nth 2 (digitsOf digits) 0 in
               (String.length digits = 10%nat /\ In firstNumber [2; 3; 4; 5])
               \/ (String.length digits = 11%nat /\ In firstNumber [6; 7; 8; 9]).
Proof.
  unfold Phone.isValid, Phone.parsePhoneDigits in Hvalid.
  destruct phone as [ | | b | n | s | ]; cbn [isString andb negb] in Hvalid;
    rewrite ?andb_false_r in Hvalid; cbn [negb] in Hvalid; try discriminate.
  exists s. split; [reflexivity|]. intros digits firstNumber.
  rewrite andb_true_r in Hvalid.
  destruct (truthy (VString s)); cbn [negb] in Hvalid; [|discriminate].
  change (onlyNumbersOf (VString s)) with digits in Hvalid.
  apply andb_true_iff in Hvalid as [Hvalid _].
  apply andb_true_iff in Hvalid as [Hlength Hfirst].
  assert (Hd : allDigits digits = true) by apply allDigits_onlyNumbers.
  unfold Phone.isValidLength, Phone.isValidLandlinePhoneLength,
    Phone.isValidMobilePhoneLength, Phone.len, Phone.PHONE_MIN_LENGTH,
    Phone.PHONE_MAX_LENGTH in Hlength.
  unfold Phone.isValidFirstNumber, Phone.isValidLandlinePhoneFirstNumber,
    Phone.isValidMobilePhoneFirstNumber, Phone.len, Phone.PHONE_MIN_LENGTH in Hfirst.
  revert Hfirst.
  destruct (Z.eqb_spec (Z.of_nat (String.length digits)) 10) as [E|E]; intros Hfirst.
  - left. split; [lia|].
    apply first_number_digit; [assumption | lia | assumption].
  - right.
    apply orb_true_iff in Hlength as [Hlength|Hlength].
    + apply andb_true_iff in Hlength as [H1 H2].
      apply Z.leb_le in H1. apply Z.ltb_lt in H2. lia.
    + apply Z.eqb_eq in Hlength. split; [lia|].
      apply first_number_digit; [assumption | lia | assumption].
Qed.

Lemma phone_isValid_length_first_digit_witness :
  exists s, VString "(11) 98765-4321" = VString s
            /\ let digits := onlyNumbers s in
               let firstNumber := nth 2 (digitsOf digits) 0 in
               (String.length digits = 10%nat /\ In firstNumber [2; 3; 4; 5])
               \/ (String.length digits = 11%nat /\ In firstNumber [6; 7; 8; 9]).
Proof.
  apply (phone_isValid_length_first_digit Sample.tables (VString "(11) 98765-4321")).
  reflexivity.
Defined.

End PhoneFacts.

(** ** Boleto *)

Section BoletoFacts.

Lemma next_weight (k : Z) :
  (if 2 + k mod 8 <? Boleto.MOD_11_WEIGHTS_end
   then 2 + k mod 8 + 1 else Boleto.MOD_11_WEIGHTS_initial)
  = 2 + (k + 1) mod 8.
Proof.
  unfold Boleto.MOD_11_WEIGHTS_end, Boleto.MOD_11_WEIGHTS_initial.
  destruct (Z.ltb_spec (2 + k mod 8) 9); Z.div_mod_to_equations; lia.
Qed.

(** The weight that travels with the accumulator is the one the position
    asks for: 2 at the right end, up to 9, then 2 again. *)
Lemma reduce_cycling_weights (l : list ascii) :
  Forall (fun c => isDigit c = true) l ->
  forall a k i,
    fst (reduceFrom
           (fun '(acc, weight) digit (_ : Z) =>
              let result := mul (parseInt (str digit)) (Some weight) in
              let weight :=
                if weight <? Boleto.MOD_11_WEIGHTS_end
                then weight + 1 else Boleto.MOD_11_WEIGHTS_initial in
              (add acc result, weight))
           l (Some a, 2 + k mod 8) i)
    = Some (a + cyclingSum k (map digitValue l)).
Proof.
  induction 1 as [|c l Hc Hl IH]; intros a k i.
  - cbn [reduceFrom fst map cyclingSum]. f_equal. lia.
  - cbn [reduceFrom]. rewrite (parseInt_digit _ Hc).
    cbn [mul add lift2]. rewrite next_weight, IH.
    cbn [map cyclingSum]. f_equal. lia.
Qed.

Lemma cyclingSum_nonneg (ds : list Z) :
  Forall (fun d => 0 <= d) ds -> forall k, 0 <= cyclingSum k ds.
Proof.
  induction 1 as [|d ds Hd Hds IH]; intros k; cbn [cyclingSum]; [lia|].
  specialize (IH (k + 1)).
  pose proof (Z.mod_pos_bound k 8 ltac:(lia)). nia.
Qed.

Lemma mod11_check_digit (value : string) :
  allDigits value = true ->
  Boleto.mod11 value = Some (boletoCheckDigit (digitsOf value)).
Proof.
  intros Hd. unfold Boleto.mod11, reduce.
  assert (Hrev : Forall (fun c => isDigit c = true) (rev (chars value))).
  { apply Forall_rev. now apply allDigits_chars. }
  pose proof (reduce_cycling_weights _ Hrev 0 0 0) as E.
  change (2 + 0 mod 8) with Boleto.MOD_11_WEIGHTS_initial in E.
  destruct (reduceFrom _ (rev (chars value)) _ 0) as [sum w].
  cbn [fst] in E. subst sum. rewrite Z.add_0_l, map_rev.
  fold (digitsOf value).
  set (sum := cyclingSum 0 (rev (digitsOf value))).
  assert (Hs : 0 <= sum).
  { apply cyclingSum_nonneg, Forall_rev, digitsOf_nonneg. assumption. }
  cbn [rem]. change (11 =? 0) with false. cbv iota.
  rewrite Z.rem_mod_nonneg by lia.
  unfold boletoCheckDigit. fold sum. cbn [numEq sub lift2].
  destruct ((sum mod 11 =? 0) || (sum mod 11 =? 1)); reflexivity.
Qed.

Lemma allDigits_slice (b e : nat) (s : string) :
  allDigits s = true -> allDigits (slice b e s) = true.
Proof. intros H. unfold slice. now apply allDigits_take, allDigits_drop. Qed.

Lemma parse_pieces (d : string) :
  Boleto.parse d
  = slice 0 4 d ++ slice 32 47 d ++ slice 4 9 d ++ slice 10 20 d ++ slice 21 31 d.
Proof.
  unfold Boleto.parse, reduce, Boleto.DIGITABLE_LINE_TO_BOLETO_CONVERT_POSITIONS.
  cbn [reduceFrom fst snd]. rewrite !append_assoc. reflexivity.
Qed.

Lemma allDigits_parse (d : string) :
  allDigits d = true -> allDigits (Boleto.parse d) = true.
Proof.
  intros H. rewrite parse_pieces, !allDigits_append, !allDigits_slice by assumption.
  reflexivity.
Qed.

Lemma length_parse (d : string) :
  String.length d = 47%nat -> String.length (Boleto.parse d) = 44%nat.
Proof.
  intros H. rewrite parse_pieces, !length_append. unfold slice.
  rewrite !length_take, !length_drop, H. reflexivity.
Qed.

Lemma index_nth_digit (s : string) (k : nat) :
  allDigits s = true -> (k < String.length s)%nat ->
  plusIndexed (index s k) = Some (nth k (digitsOf s) 0).
Proof.
  intros Hd Hk. destruct (drop_nth_digit s k Hd Hk) as (c & E1 & Hc & E2).
  unfold index. destruct (drop k s) as [|c' rest] eqn:E.
  - cbn in E1. discriminate.
  - cbn [take] in E1. destruct rest; injection E1 as ->;
      cbn [plusIndexed]; now rewrite (toNumber_digit _ Hc), E2.
Qed.

(** C10. For a digitable line of 47 digits whose three partial checks pass,
    [isValid] holds exactly when the digit at position 4 of the rearranged
    line is the mod-11 check digit of its other digits: weights 2 to 9 in
    a cycle from the rightmost digit, remainders 0 and 1 both giving 1 and
    any other remainder r giving 11 - r. *)
Theorem boleto_isValid_mod11 (digitableLine : string)
        (Hlen : String.length (onlyNumbers digitableLine) = 47%nat)
        (Hpartials : Boleto.isValidPartials (onlyNumbers digitableLine) = true) :
  let rearranged := Boleto.parse (onlyNumbers digitableLine) in
  Boleto.isValid (VString digitableLine)
  = (nth 4 (digitsOf rearranged) 0
     =? boletoCheckDigit (digitsOf (take 4 rearranged ++ drop 5 rearranged))).
Proof.
  intros rearranged.
  assert (Hne : digitableLine <> "").
  { intros E. rewrite E in Hlen. discriminate. }
  unfold Boleto.isValid. cbn [truthy].
  apply String.eqb_neq in Hne. rewrite Hne. cbn [negb].
  unfold Boleto.isValidLength. rewrite Hlen, Hpartials.
  change (47 =? Boleto.LENGTH)%nat with true. cbn [negb].
  fold rearranged.
  assert (Hd : allDigits rearranged = true)
    by apply allDigits_parse, allDigits_onlyNumbers.
  assert (Hl : String.length rearranged = 44%nat) by now apply length_parse.
  unfold Boleto.isValidCheckDigit, Boleto.CHECK_DIGIT_POSITION, sliceFrom.
  change (4 + 1)%nat with 5%nat.
  replace (slice 0 4 rearranged) with (take 4 rearranged)
    by (unfold slice; destruct rearranged; reflexivity).
  rewrite mod11_check_digit.
  2:{ rewrite allDigits_append, allDigits_take, allDigits_drop by assumption.
      reflexivity. }
  rewrite index_nth_digit by (try assumption; lia).
  reflexivity.
Qed.

Lemma boleto_isValid_mod11_witness :
  let digitableLine := "00190.00009 01149.718601 68524.522114 6 75860000102656" in
  let rearranged := Boleto.parse (onlyNumbers digitableLine) in
  Boleto.isValid (VString digitableLine)
  = (nth 4 (digitsOf rearranged) 0
     =? boletoCheckDigit (digitsOf (take 4 rearranged ++ drop 5 rearranged))).
Proof.
  apply (boleto_isValid_mod11 "00190.00009 01149.718601 68524.522114 6 75860000102656");
    reflexivity.
Defined.

End BoletoFacts.


(** ** States and cities: what the accessors do to the tables *)

Section TableFacts.

Variable localeCompare : string -> string -> Z.

Lemma sort_sorted {A} (compare : A -> A -> Z) (l : list A) :
  Sorting.sortedb compare l = true -> Sorting.sort compare l = l.
Proof.
  induction l as [|x l IH]; intros H; [reflexivity|].
  cbn [Sorting.sort]. cbn [Sorting.sortedb] in H.
  destruct l as [|y l]; [reflexivity|].
  apply andb_true_iff in H as [Hxy Hl].
  rewrite (IH Hl). cbn [Sorting.insert]. now rewrite Hxy.
Qed.

Lemma In_insert {A} (compare : A -> A -> Z) (x y : A) (l : list A) :
  In y (Sorting.insert compare x l) -> y = x \/ In y l.
Proof.
  induction l as [|z l IH]; cbn [Sorting.insert].
  - intros [<-|[]]. now left.
  - destruct (compare x z <=? 0).
    + intros [<-|H]; [now left | now right].
    + intros [<-|H]; [right; now left|].
      destruct (IH H) as [->|H']; [now left | right; now right].
Qed.

Lemma In_sort {A} (compare : A -> A -> Z) (y : A) (l : list A) :
  In y (Sorting.sort compare l) -> In y l.
Proof.
  induction l as [|x l IH]; cbn [Sorting.sort]; [auto|].
  intros H. apply In_insert in H as [->|H]; [now left | right; auto].
Qed.

Lemma find_none {A} (f : A -> bool) (l : list A) :
  (forall x, In x l -> f x = false) -> find f l = None.
Proof.
  induction l as [|y l IH]; intros H; cbn [find]; [reflexivity|].
  rewrite (H y) by now left. apply IH. intros x Hx. apply H. now right.
Qed.

Lemma setProp_same {V} (o : object V) (k : string) (v : V) :
  prop o k = Some v -> setProp o k v = o.
Proof.
  induction o as [|[k' v'] o IH]; cbn [prop setProp]; [reflexivity|].
  destruct (String.eqb k' k).
  - now intros [= ->].
  - intros H. now rewrite IH.
Qed.

Lemma prop_In {V} (o : object V) (k : string) (v : V) :
  prop o k = Some v -> exists k', In (k', v) o.
Proof.
  induction o as [|[k' v'] o IH]; cbn [prop]; [discriminate|].
  destruct (String.eqb k' k).
  - intros [= ->]. exists k'. now left.
  - intros H. destruct (IH H) as [k'' Hk]. exists k''. now right.
Qed.

(** [getStates] leaves the tables as they are. *)
Lemma getStates_frame (tbl : Store) : snd (States.getStates localeCompare tbl) = tbl.
Proof. reflexivity. Qed.

(** So does [getCities] without a state. *)
Lemma getCities_all_frame (tbl : Store) :
  snd (Cities.getCities localeCompare None tbl) = tbl.
Proof. reflexivity. Qed.

(** With a state, [getCities] either leaves the tables as they are or
    replaces the array of one state by its sorted self, and then it
    returns that very array. *)
Lemma getCities_effect (st : string) (tbl : Store) :
  snd (Cities.getCities localeCompare (Some st) tbl) = tbl
  \/ exists c cities,
      prop (CITIES_DATA tbl) c = Some cities
      /\ Cities.getCities localeCompare (Some st) tbl
         = (Ok (Cities.TableArray c),
            {| STATES := STATES tbl;
               STATES_DATA := STATES_DATA tbl;
               CITIES_DATA :=
                 setProp (CITIES_DATA tbl) c
                         (Sorting.sort (Cities.sortAlphabetically localeCompare) cities) |}).
Proof.
  unfold Cities.getCities.
  destruct (String.eqb st ""); cbn [negb]; [now left|].
  unfold States.getStates.
  destruct (bind (States.mapStates tbl (STATES tbl)) _) as [states|e]; [|now left].
  destruct (find _ states) as [found|]; [|now left].
  unfold Cities.sortTableArray.
  destruct (prop (CITIES_DATA tbl) (States.code found)) as [cities|] eqn:E; [|now left].
  right. exists (States.code found), cities. auto.
Qed.

(** When every array of the table is already in order, no call changes
    the tables. *)
Lemma getCities_sorted_frame (state : option string) (tbl : Store) :
  citiesSorted localeCompare tbl = true ->
  snd (Cities.getCities localeCompare state tbl) = tbl.
Proof.
  intros Hs. destruct state as [st|]; [|apply getCities_all_frame].
  destruct (getCities_effect st tbl) as [H|(c & cities & E & H)]; [assumption|].
  rewrite H. cbn [snd].
  rewrite sort_sorted.
  - rewrite (setProp_same _ _ _ E). now destruct tbl.
  - unfold citiesSorted in Hs. rewrite forallb_forall in Hs.
    destruct (prop_In _ _ _ E) as [k Hk]. apply (Hs _ Hk).
Qed.

Lemma mapStates_ok (tbl : Store) (codes : list string) :
  forallb (fun c => match prop (STATES_DATA tbl) c with
                    | Some _ => true
                    | None => false
                    end) codes = true ->
  exists states,
    States.mapStates tbl codes = Ok states
    /\ forall x, In x states ->
                 In (States.code x) codes
                 /\ exists data, prop (STATES_DATA tbl) (States.code x) = Some data
                                 /\ States.name x = Tables.name data.
Proof.
  induction codes as [|c codes IH]; cbn [forallb States.mapStates]; intros H.
  - exists []. split; [reflexivity | intros x []].
  - apply andb_true_iff in H as [Hc Hrest].
    destruct (prop (STATES_DATA tbl) c) as [data|] eqn:E; [|discriminate].
    destruct (IH Hrest) as (states & Es & Hstates).
    rewrite Es. cbn [bind]. eexists. split; [reflexivity|].
    intros x [<-|Hx]; cbn [States.code States.name].
    + split; [now left | eauto].
    + destruct (Hstates x Hx) as (Hin & Hdata). split; [now right | assumption].
Qed.

(** A state that no listed state has as code or name gets the empty array,
    a new one, and the tables stay as they are. *)
Lemma getCities_unknown (st : string) (tbl : Store) :
  st <> "" ->
  statesHaveData tbl = true ->
  unknownState tbl st = true ->
  Cities.getCities localeCompare (Some st) tbl = (Ok (Cities.NewArray []), tbl).
Proof.
  intros Hne Hdata Hunknown. unfold Cities.getCities.
  apply String.eqb_neq in Hne. rewrite Hne. cbn [negb].
  unfold States.getStates.
  destruct (mapStates_ok tbl (STATES tbl) Hdata) as (states & Es & Hstates).
  rewrite Es. cbn [bind].
  replace (find _ (States.sortByStateName localeCompare states)) with (@None States.State);
    [reflexivity|].
  symmetry. apply find_none. intros x Hx.
  apply In_sort in Hx. destruct (Hstates x Hx) as (Hin & data & Ed & En).
  unfold unknownState in Hunknown. rewrite forallb_forall in Hunknown.
  specialize (Hunknown _ Hin). rewrite Ed in Hunknown.
  apply andb_true_iff in Hunknown as [H1 H2].
  rewrite En. apply negb_true_iff in H1, H2. rewrite H1, H2. reflexivity.
Qed.

End TableFacts.

(** C2. With a known state, [getCities] sorts the array of the table where
    it is: after [getCities('SP')] the table holds the cities of SP in
    another order than before, and the value of the call is the array of
    the table itself. The accessors that build their own array
    ([getStates], [getCities] without a state) leave the tables as they
    are. *)
Theorem getCities_sorts_table_in_place :
  let result := Cities.getCities Sample.compareChars (Some "SP") Sample.tables in
  fst result = Ok (Cities.TableArray "SP")
  /\ prop (CITIES_DATA Sample.tables) "SP" = Some ["Santos"; "Campinas"]
  /\ prop (CITIES_DATA (snd result)) "SP" = Some ["Campinas"; "Santos"]
  /\ snd result <> Sample.tables.
Proof.
  repeat split; try (vm_compute; reflexivity).
  vm_compute. discriminate.
Qed.


(** ** Generators: valid unless reserved *)

Section GeneratorFacts.

Variable rnd : Random.
Hypothesis rnd_digit : forall k, 0 <= rnd k <= 9.

Lemma intToString_digit (d : Z) :
  0 <= d <= 9 -> exists c, intToString d = str c /\ isDigit c = true.
Proof.
  intros H.
  assert (E : d = 0 \/ d = 1 \/ d = 2 \/ d = 3 \/ d = 4 \/ d = 5 \/ d = 6
              \/ d = 7 \/ d = 8 \/ d = 9) by lia.
  repeat (destruct E as [->|E]; [eexists; split; reflexivity|]).
  subst. eexists; split; reflexivity.
Qed.

Lemma generateRandomNumber_digits (n : nat) :
  forall pos, allDigits (fst (generateRandomNumber rnd n pos)) = true
              /\ String.length (fst (generateRandomNumber rnd n pos)) = n.
Proof using rnd_digit.
  induction n as [|n IH]; intros pos; cbn [generateRandomNumber]; [now split|].
  specialize (IH (S pos)).
  destruct (generateRandomNumber rnd n (S pos)) as [rest pos'].
  cbn [fst] in *. destruct IH as [Hd Hl].
  destruct (intToString_digit _ (rnd_digit pos)) as (c & -> & Hc).
  cbn [str append allDigits String.length]. rewrite Hc, Hd, Hl. now split.
Qed.

(** A single weight never gives NaN. *)
Lemma reduce_number_weight (w : Z) (l : list ascii) :
  Forall (fun c => isDigit c = true) l ->
  forall a i, exists S,
    reduceFrom (fun acc digit j => add acc (mul (parseInt (str digit)) (Some (w - j))))
               l (Some a) i = Some S.
Proof.
  induction 1 as [|c l Hc Hl IH]; intros a i; cbn [reduceFrom]; [eauto|].
  rewrite (parseInt_digit _ Hc). cbn [mul add lift2]. apply IH.
Qed.

Lemma generateChecksum_number (w : Z) (base : string) :
  exists S, generateChecksum base (WNumber w) = Some S.
Proof.
  unfold generateChecksum, reduce. apply reduce_number_weight.
  apply allDigits_chars, allDigits_onlyNumbers.
Qed.

(** A check digit is one digit, whatever the sum. *)
Lemma checkDigit_digit (S : Z) :
  exists c, Cpf.checkDigit (rem (Some S) (Some 11)) = str c /\ isDigit c = true.
Proof.
  unfold Cpf.checkDigit. cbn [rem]. change (11 =? 0) with false. cbv iota.
  cbn [lt sub lift2].
  pose proof (Z.rem_bound_abs S 11 ltac:(lia)) as Hb.
  destruct (Z.ltb_spec (Z.rem S 11) 2) as [H|H].
  - exists "0"%char. now split.
  - apply intToString_digit. lia.
Qed.

Lemma take_append_exact (a b : string) (n : nat) :
  String.length a = n -> take n (a ++ b) = a.
Proof.
  revert n; induction a as [|x a IH]; intros n H; cbn in H; subst n.
  - now destruct b.
  - cbn [append take String.length]. now rewrite IH.
Qed.

Lemma drop_append_exact (a b : string) (n : nat) :
  String.length a = n -> drop n (a ++ b) = b.
Proof.
  revert n; induction a as [|x a IH]; intros n H; cbn in H; subst n.
  - now destruct b.
  - cbn [append drop String.length]. now rewrite IH.
Qed.

Lemma reduce_appendDigit (s : string) :
  reduce (fun acc digit (_ : Z) => appendDigit acc digit) (chars s) "" = s.
Proof.
  unfold reduce.
  assert (G : forall l acc i,
             reduceFrom (fun acc digit (_ : Z) => appendDigit acc digit) l acc i
             = acc ++ join l).
  { induction l as [|c l IH]; intros acc i; cbn [reduceFrom].
    - now rewrite append_empty_r.
    - rewrite IH. unfold appendDigit, str. rewrite append_assoc. reflexivity. }
  rewrite G. cbn [append]. apply join_chars.
Qed.

Lemma matches_rep_digits (n : nat) :
  forall s, allDigits s = true -> String.length s = n -> matches (Rep n Digit) s.
Proof.
  induction n as [|n IH]; intros [|c s] Hd Hl; cbn in Hl; try discriminate.
  - constructor.
  - cbn [allDigits] in Hd. apply andb_true_iff in Hd as [Hc Hs].
    change (String c s) with (str c ++ s). cbn [Rep].
    constructor; [now constructor | apply IH; [assumption | lia]].
Qed.

Lemma matches_opt_empty (r : regex) : matches (Opt r) "".
Proof. apply MAltR. constructor. Qed.

Lemma cpf_isValidFormat_digits (s : string) :
  allDigits s = true -> String.length s = 11%nat -> Cpf.isValidFormat s = true.
Proof.
  intros Hd Hl. unfold Cpf.isValidFormat. apply test_matches.
  rewrite <- (take_drop 3 s), <- (take_drop 3 (drop 3 s)),
    <- (take_drop 3 (drop 3 (drop 3 s))).
  set (a := take 3 s). set (b := take 3 (drop 3 s)).
  set (c := take 3 (drop 3 (drop 3 s))). set (d := drop 3 (drop 3 (drop 3 s))).
  replace (a ++ b ++ c ++ d) with (a ++ "" ++ b ++ "" ++ c ++ "" ++ d ++ "")
    by (cbn [append]; now rewrite append_empty_r).
  unfold Cpf.formatPattern. cbn [SeqAll].
  repeat (constructor; try apply matches_opt_empty);
    try (apply matches_rep_digits; unfold a, b, c, d;
         [ auto using allDigits_take, allDigits_drop
         | rewrite ?length_take, ?length_drop, Hl; reflexivity ]).
Qed.

Lemma cnpj_isValidFormat_digits (s : string) :
  allDigits s = true -> String.length s = 14%nat -> Cnpj.isValidFormat s = true.
Proof.
  intros Hd Hl. unfold Cnpj.isValidFormat. apply test_matches.
  rewrite <- (take_drop 2 s), <- (take_drop 3 (drop 2 s)),
    <- (take_drop 3 (drop 3 (drop 2 s))),
    <- (take_drop 4 (drop 3 (drop 3 (drop 2 s)))).
  set (a := take 2 s). set (b := take 3 (drop 2 s)).
  set (c := take 3 (drop 3 (drop 2 s))).
  set (d := take 4 (drop 3 (drop 3 (drop 2 s)))).
  set (e := drop 4 (drop 3 (drop 3 (drop 2 s)))).
  replace (a ++ b ++ c ++ d ++ e)
    with (a ++ "" ++ b ++ "" ++ c ++ "" ++ d ++ "" ++ e ++ "")
    by (cbn [append]; now rewrite append_empty_r).
  unfold Cnpj.formatPattern. cbn [SeqAll].
  repeat (constructor; try apply matches_opt_empty);
    try (apply matches_rep_digits; unfold a, b, c, d, e;
         [ auto using allDigits_take, allDigits_drop
         | rewrite ?length_take, ?length_drop, Hl; reflexivity ]).
Qed.

Lemma index_append_exact (a : string) (c : ascii) (b : string) (n : nat) :
  String.length a = n -> index (a ++ str c ++ b) n = Some (str c).
Proof. intros H. unfold index. now rewrite (drop_append_exact _ _ _ H). Qed.

Lemma index_append_last (a : string) (c : ascii) (n : nat) :
  String.length a = n -> index (a ++ str c) n = Some (str c).
Proof. intros H. unfold index. now rewrite (drop_append_exact _ _ _ H). Qed.

(** The checks of [isValidChecksum] recompute what the generator has
    computed: a base followed by its two check digits passes. *)
Lemma cpf_checksum_of_generated (base : string) (c1 c2 : ascii) :
  String.length base = 9%nat ->
  Cpf.checkDigit (rem (generateChecksum base (WNumber 10)) (Some 11)) = str c1 ->
  Cpf.checkDigit (rem (generateChecksum (base ++ str c1) (WNumber 11)) (Some 11)) = str c2 ->
  Cpf.isValidChecksum (base ++ str c1 ++ str c2) = true.
Proof.
  intros Hl E1 E2. unfold Cpf.isValidChecksum, Cpf.CHECK_DIGITS_INDEXES.
  cbn [forallb]. unfold slice. cbn [drop Nat.sub].
  rewrite !reduce_appendDigit.
  replace (drop 0 (base ++ str c1 ++ str c2)) with (base ++ str c1 ++ str c2)
    by (now destruct (base ++ str c1 ++ str c2)).
  rewrite (take_append_exact base _ _ Hl).
  change (Z.of_nat 9 + 1) with 10. rewrite E1.
  rewrite (index_append_exact base c1 (str c2) _ Hl).
  replace (base ++ str c1 ++ str c2) with ((base ++ str c1) ++ str c2)
    by now rewrite append_assoc.
  assert (Hl' : String.length (base ++ str c1) = 10%nat)
    by (rewrite length_append, Hl; reflexivity).
  rewrite (take_append_exact (base ++ str c1) _ _ Hl').
  change (Z.of_nat 10 + 1) with 11. rewrite E2.
  rewrite (index_append_last (base ++ str c1) c2 _ Hl').
  cbn [strictEq]. now rewrite !String.eqb_refl.
Qed.

Lemma cpf_valid_of_generated (base : string) :
  allDigits base = true -> String.length base = 9%nat ->
  forall out,
    out = base
          ++ Cpf.checkDigit (rem (generateChecksum base (WNumber 10)) (Some 11))
          ++ Cpf.checkDigit
               (rem (generateChecksum
                       (base ++ Cpf.checkDigit
                                  (rem (generateChecksum base (WNumber 10)) (Some 11)))
                       (WNumber 11)) (Some 11)) ->
    Cpf.isValid (VString out) = negb (Cpf.isReservedNumber out).
Proof.
  intros Hd Hl out ->.
  destruct (generateChecksum_number 10 base) as [S1 ES1]. rewrite ES1.
  destruct (checkDigit_digit S1) as (c1 & E1 & Hc1). rewrite E1.
  destruct (generateChecksum_number 11 (base ++ str c1)) as [S2 ES2]. rewrite ES2.
  destruct (checkDigit_digit S2) as (c2 & E2 & Hc2). rewrite E2.
  set (out := base ++ str c1 ++ str c2).
  assert (Ho : allDigits out = true).
  { unfold out. rewrite !allDigits_append, Hd. cbn [str allDigits].
    now rewrite Hc1, Hc2. }
  assert (Lo : String.length out = 11%nat).
  { unfold out. rewrite !length_append, Hl. reflexivity. }
  unfold Cpf.isValid. cbn [truthy].
  destruct (String.eqb_spec out "") as [E|_]; [rewrite E in Lo; discriminate|].
  cbn [negb]. rewrite (onlyNumbers_allDigits _ Ho).
  rewrite (cpf_isValidFormat_digits _ Ho Lo). cbn [andb].
  unfold out at 2. rewrite cpf_checksum_of_generated.
  - apply andb_true_r.
  - assumption.
  - rewrite ES1. exact E1.
  - rewrite ES2. exact E2.
Qed.

(** What [generate] returns for a CPF passes [isValid] exactly when it is
    not a reserved number, provided the code of a state is one digit. *)
Lemma cpf_generate_valid_unless_reserved
      (tbl : Store) (state : option string) (pos pos' : nat) (out : string) :
  (forall st data, prop (STATES_DATA tbl) st = Some data -> 0 <= Tables.code data <= 9) ->
  Cpf.generate tbl rnd state pos = Ok (out, pos') ->
  Cpf.isValid (VString out) = negb (Cpf.isReservedNumber out).
Proof using rnd_digit.
  intros Hcode. unfold Cpf.generate.
  set (k := fun p : string * nat => _).
  assert (Hk : forall stateCode p,
             (exists c, stateCode = str c /\ isDigit c = true) ->
             k (stateCode, p) = Ok (out, pos') ->
             Cpf.isValid (VString out) = negb (Cpf.isReservedNumber out)).
  { intros stateCode p (c & -> & Hc) E. unfold k in E.
    pose proof (generateRandomNumber_digits (Cpf.LENGTH - 3) p) as [Hd Hl].
    destruct (generateRandomNumber rnd (Cpf.LENGTH - 3) p) as [base p'].
    cbn [fst] in Hd, Hl. injection E as E _.
    apply (cpf_valid_of_generated (base ++ str c)).
    - rewrite allDigits_append, Hd. cbn [str allDigits]. now rewrite Hc.
    - rewrite length_append, Hl. reflexivity.
    - rewrite <- E, !append_assoc. reflexivity. }
  assert (Hsource : forall p,
             bind (let (d, p') := generateRandomNumber rnd 1 p in Ok (d, p')) k
             = Ok (out, pos') ->
             Cpf.isValid (VString out) = negb (Cpf.isReservedNumber out)).
  { intros p. cbn [generateRandomNumber].
    destruct (intToString_digit _ (rnd_digit p)) as (c & E & Hc). rewrite E.
    cbn [append str bind]. apply Hk. exists c. now split. }
  destruct state as [st|]; [|apply Hsource].
  destruct (negb (String.eqb st "") && includesStr (STATES tbl) st); [|apply Hsource].
  destruct (prop (STATES_DATA tbl) st) as [data|] eqn:E; cbn [bind]; [|discriminate].
  apply Hk. apply intToString_digit. eauto.
Qed.

Lemma cnpj_checkDigit_digit (S : Z) :
  exists c, Cnpj.checkDigit (rem (Some S) (Some 11)) = str c /\ isDigit c = true.
Proof. apply checkDigit_digit. Qed.

(** And so for a CNPJ. *)
Lemma cnpj_generate_valid_unless_reserved (pos : nat) :
  let out := fst (Cnpj.generate rnd pos) in
  Cnpj.isValid (VString out) = negb (Cnpj.isReservedNumber out).
Proof using rnd_digit.
  unfold Cnpj.generate.
  pose proof (generateRandomNumber_digits (Cnpj.LENGTH - 2) pos) as [Hd Hl].
  destruct (generateRandomNumber rnd (Cnpj.LENGTH - 2) pos) as [base p'].
  cbn [fst] in *. change (Cnpj.LENGTH - 2)%nat with 12%nat in Hl.
  rewrite (generateChecksum_table Cnpj.FIRST_CHECK_DIGIT_WEIGHTS base Hd)
    by (rewrite Hl; cbn; lia).
  destruct (cnpj_checkDigit_digit
              (weightedSum Cnpj.FIRST_CHECK_DIGIT_WEIGHTS (digitsOf base)))
    as (c1 & E1 & Hc1).
  rewrite E1.
  assert (Hd1 : allDigits (base ++ str c1) = true).
  { rewrite allDigits_append, Hd. cbn [str allDigits]. now rewrite Hc1. }
  assert (Hl1 : String.length (base ++ str c1) = 13%nat)
    by (rewrite length_append, Hl; reflexivity).
  rewrite (generateChecksum_table Cnpj.SECOND_CHECK_DIGIT_WEIGHTS _ Hd1)
    by (rewrite Hl1; cbn; lia).
  destruct (cnpj_checkDigit_digit
              (weightedSum Cnpj.SECOND_CHECK_DIGIT_WEIGHTS (digitsOf (base ++ str c1))))
    as (c2 & E2 & Hc2).
  rewrite E2.
  set (out := base ++ str c1 ++ str c2).
  assert (Ho : allDigits out = true).
  { unfold out. rewrite !allDigits_append, Hd. cbn [str allDigits].
    now rewrite Hc1, Hc2. }
  assert (Lo : String.length out = 14%nat).
  { unfold out. rewrite !length_append, Hl. reflexivity. }
  unfold Cnpj.isValid. cbn [truthy].
  destruct (String.eqb_spec out "") as [E|_]; [rewrite E in Lo; discriminate|].
  cbn [negb]. rewrite (onlyNumbers_allDigits _ Ho).
  rewrite (cnpj_isValidFormat_digits _ Ho Lo). cbn [andb].
  replace (Cnpj.isValidChecksum out) with true; [apply andb_true_r|].
  symmetry. unfold Cnpj.isValidChecksum, Cnpj.CHECK_DIGITS_INDEXES.
  cbn [everyWith last Nat.eqb]. unfold slice. cbn [drop Nat.sub].
  rewrite !reduce_appendDigit.
  replace (drop 0 out) with out by (now destruct out).
  unfold out at 1 2.
  rewrite (take_append_exact base _ _ Hl).
  rewrite (generateChecksum_table Cnpj.FIRST_CHECK_DIGIT_WEIGHTS base Hd)
    by (rewrite Hl; cbn; lia).
  rewrite E1, (index_append_exact base c1 (str c2) _ Hl).
  cbn [strictEq]. rewrite String.eqb_refl. cbv iota.
  unfold out.
  replace (base ++ str c1 ++ str c2) with ((base ++ str c1) ++ str c2)
    by now rewrite append_assoc.
  rewrite (take_append_exact (base ++ str c1) _ _ Hl1).
  change (6 :: Cnpj.FIRST_CHECK_DIGIT_WEIGHTS) with Cnpj.SECOND_CHECK_DIGIT_WEIGHTS.
  rewrite (generateChecksum_table Cnpj.SECOND_CHECK_DIGIT_WEIGHTS _ Hd1)
    by (rewrite Hl1; cbn; lia).
  rewrite E2, (index_append_last (base ++ str c1) c2 _ Hl1).
  cbn [strictEq]. now rewrite String.eqb_refl.
Qed.

End GeneratorFacts.


(** ** Absent and malformed input *)

Section TotalityFacts.

Lemma removeAll_not_digit (s : string) :
  removeAll (fun c => negb (isDigit c)) s = onlyNumbers s.
Proof.
  induction s as [|c s IH]; cbn [removeAll onlyNumbers]; [reflexivity|].
  destruct (isDigit c); cbn [negb]; now rewrite IH.
Qed.

Lemma leadingDigits_allDigits (s : string) :
  allDigits s = true -> leadingDigits s = s.
Proof.
  induction s as [|c s IH]; cbn [allDigits leadingDigits]; intros H; [reflexivity|].
  apply andb_true_iff in H as [Hc Hs]. now rewrite Hc, IH.
Qed.

Lemma parseInt_digits (s : string) :
  allDigits s = true -> s <> "" -> parseInt s = Some (decimalFrom 0 s).
Proof.
  intros Hd Hne. unfold parseInt. rewrite (leadingDigits_allDigits _ Hd).
  destruct s; [congruence | reflexivity].
Qed.

(** On a string, [parse] returns without throwing: the number its digits
    read as, in hundredths, as long as that number is below 2^53, and a
    rounded double beyond. *)
Lemma parse_string (s : string) :
  Currency.parse (VString s)
  = if decimalFrom 0 (onlyNumbers s) <? Currency.EXACT_BELOW
    then Ok (Currency.Hundredths (decimalFrom 0 (onlyNumbers s)))
    else Ok Currency.Rounded.
Proof.
  unfold Currency.parse. rewrite removeAll_not_digit.
  destruct (String.eqb_spec (onlyNumbers s) "") as [E|E].
  - rewrite E. reflexivity.
  - rewrite parseInt_digits; auto using allDigits_onlyNumbers.
Qed.

(** On undefined, null, a boolean, a number and the object [{}], [parse]
    throws. *)
Lemma parse_not_string (v : JsValue) :
  isString v = false -> Currency.parse v = Throw TypeError.
Proof. destruct v; cbn; congruence. Qed.

(** So does [capitalize], whatever the locale. *)
Lemma capitalize_not_string (lower upper : string -> string) (v : JsValue)
      (options : option Capitalize.CapitalizeOptions) :
  isString v = false -> Capitalize.capitalize lower upper v options = Throw TypeError.
Proof. destruct v; cbn; congruence. Qed.

(** [format] of a currency throws when the precision is not between 0 and
    100, whatever the number. *)
Lemma format_precision_out_of_range (double : Type) (digits : double -> Z -> string)
      (value : double) (p : Z) :
  p < 0 \/ 100 < p ->
  Currency.format digits value {| Currency.precision := Some p |} = Throw RangeError.
Proof.
  intros H. unfold Currency.format, Currency.toFixed. cbn [Currency.precision].
  destruct (Z.ltb_spec p 0), (Z.ltb_spec 100 p); cbn [orb bind]; try reflexivity; lia.
Qed.

Lemma isValid_guard (tbl : Store) (v : JsValue) :
  truthy v && isString v = false ->
  Cpf.isValid v = false /\ Cnpj.isValid v = false /\ Cep.isValid v = false
  /\ Phone.isValid tbl v = false /\ Pis.isValid v = false
  /\ Email.isValid v = false /\ Boleto.isValid v = false
  /\ ProcessoJuridico.isValid v = false.
Proof.
  intros H.
  assert (Hphone : Phone.isValid tbl v = false).
  { unfold Phone.isValid, Phone.parsePhoneDigits. now rewrite H. }
  destruct v as [ | | b | n | s | ]; try (repeat split; (reflexivity || assumption)).
  rewrite andb_true_r in H.
  unfold Cpf.isValid, Cnpj.isValid, Cep.isValid, Pis.isValid, Email.isValid,
    Boleto.isValid, ProcessoJuridico.isValid.
  rewrite H. cbn [negb]. repeat split; (reflexivity || assumption).
Qed.

(** C9, as amended. For an argument that is undefined, null, a boolean, a
    number, the object [{}] or the empty string, every [isValid] returns
    false (for the phone, given that [onlyNumbers] takes any such value
    without throwing, as its documentation says). [parse] of a currency
    returns without throwing for every string: the number its digits
    read as, divided by 100, when that number is below 2^53, and 0 for a
    string without digits. [getCities] returns the empty list, and leaves
    the tables alone, for a non-empty state that no listed state has as
    code or name, as long as every listed code has its record. The
    operations without a guard do throw: [parse] and [capitalize] throw a
    TypeError on undefined, null, a boolean, a number and the object
    [{}], and [format] of a currency throws a RangeError for an integer
    precision outside 0..100. *)
Theorem defined_on_declared_inputs
        (tbl : Store) (localeCompare : string -> string -> Z)
        (v w : JsValue) (s st : string)
        (lower upper : string -> string) (options : option Capitalize.CapitalizeOptions)
        (double : Type) (digits : double -> Z -> string) (value : double) (p : Z)
        (Hv : truthy v && isString v = false)
        (Hs : onlyNumbers s = "")
        (Hst : st <> "")
        (Hdata : statesHaveData tbl = true)
        (Hunknown : unknownState tbl st = true)
        (Hw : isString w = false)
        (Hp : p < 0 \/ 100 < p) :
  (Cpf.isValid v = false /\ Cnpj.isValid v = false /\ Cep.isValid v = false
   /\ Phone.isValid tbl v = false /\ Pis.isValid v = false
   /\ Email.isValid v = false /\ Boleto.isValid v = false
   /\ ProcessoJuridico.isValid v = false)
  /\ (forall t, exists a, Currency.parse (VString t) = Ok a)
  /\ (forall t, decimalFrom 0 (onlyNumbers t) < 2 ^ 53 ->
                Currency.parse (VString t)
                = Ok (Currency.Hundredths (decimalFrom 0 (onlyNumbers t))))
  /\ Currency.parse (VString s) = Ok (Currency.Hundredths 0)
  /\ Cities.getCities localeCompare (Some st) tbl = (Ok (Cities.NewArray []), tbl)
  /\ Currency.parse w = Throw TypeError
  /\ Capitalize.capitalize lower upper w options = Throw TypeError
  /\ Currency.format digits value {| Currency.precision := Some p |} = Throw RangeError.
Proof.
  split; [now apply isValid_guard|].
  split.
  { intros t. rewrite parse_string.
    destruct (decimalFrom 0 (onlyNumbers t) <? Currency.EXACT_BELOW); eauto. }
  split.
  { intros t Ht. rewrite parse_string.
    destruct (Z.ltb_spec (decimalFrom 0 (onlyNumbers t)) Currency.EXACT_BELOW) as [_|F];
      [reflexivity|].
    unfold Currency.EXACT_BELOW in F. lia. }
  split; [rewrite parse_string, Hs; reflexivity|].
  split; [now apply getCities_unknown|].
  split; [now apply parse_not_string|].
  split; [now apply capitalize_not_string|].
  now apply format_precision_out_of_range.
Qed.

Lemma defined_on_declared_inputs_witness :
  (Cpf.isValid VUndefined = false /\ Cnpj.isValid VUndefined = false
   /\ Cep.isValid VUndefined = false
   /\ Phone.isValid Sample.tables VUndefined = false /\ Pis.isValid VUndefined = false
   /\ Email.isValid VUndefined = false /\ Boleto.isValid VUndefined = false
   /\ ProcessoJuridico.isValid VUndefined = false)
  /\ (forall t, exists a, Currency.parse (VString t) = Ok a)
  /\ (forall t, decimalFrom 0 (onlyNumbers t) < 2 ^ 53 ->
                Currency.parse (VString t)
                = Ok (Currency.Hundredths (decimalFrom 0 (onlyNumbers t))))
  /\ Currency.parse (VString "R$ ,") = Ok (Currency.Hundredths 0)
  /\ Cities.getCities Sample.compareChars (Some "XX") Sample.tables
     = (Ok (Cities.NewArray []), Sample.tables)
  /\ Currency.parse (VNumber 12) = Throw TypeError
  /\ Capitalize.capitalize Capitalize.asciiLowerCase Capitalize.asciiUpperCase
                           (VNumber 12) None = Throw TypeError
  /\ Currency.format (fun (_ : unit) (_ : Z) => "1.5") tt
                     {| Currency.precision := Some 101 |} = Throw RangeError.
Proof.
  apply (defined_on_declared_inputs
           Sample.tables Sample.compareChars VUndefined (VNumber 12) "R$ ," "XX");
    try reflexivity; [discriminate | lia].
Defined.

(** C9, the counterexample: [parse] of a currency throws a TypeError when
    its argument is absent. *)
Lemma currency_parse_absent_throws : Currency.parse VUndefined = Throw TypeError.
Proof. reflexivity. Qed.

End TotalityFacts.

(** ** Capitalize *)

Section CapitalizeFacts.

(** Whatever the locale, as long as it maps the letters of these two
    words as every locale does: the acronym of the default list comes out
    capitalized, not in upper case. *)
Lemma capitalize_default_acronym (lower upper : string -> string) :
  lower "empresa" = "empresa" -> upper "empresa" = "EMPRESA" ->
  lower "cpf" = "cpf" -> upper "cpf" = "CPF" ->
  Capitalize.capitalize lower upper (VString "empresa cpf") None = Ok "Empresa Cpf".
Proof.
  intros L1 U1 L2 U2. unfold Capitalize.capitalize.
  cbn [Capitalize.noOptions Capitalize.lowerCaseWords Capitalize.upperCaseWords].
  change (Capitalize.split "empresa cpf") with ["empresa"; "cpf"].
  cbn [filter String.eqb Ascii.eqb Bool.eqb negb Capitalize.mapFrom].
  rewrite L1, U1, L2, U2. reflexivity.
Qed.

(** C7. With the default lists, [capitalize] does not render an acronym
    in upper case: it looks the upper-cased word up in a list whose
    entries are in lower case, so [cpf] comes out as [Cpf]. A list with
    entries in upper case does give [CPF]. *)
Theorem capitalize_default_acronym_not_upper :
  let capitalize :=
    Capitalize.capitalize Capitalize.asciiLowerCase Capitalize.asciiUpperCase in
  capitalize (VString "empresa cpf") None = Ok "Empresa Cpf"
  /\ capitalize (VString "joao da silva") None = Ok "Joao da Silva"
  /\ capitalize (VString "empresa cpf")
                (Some {| Capitalize.lowerCaseWords := None;
                         Capitalize.upperCaseWords := Some ["CPF"] |})
     = Ok "Empresa CPF".
Proof. repeat split; vm_compute; reflexivity. Qed.

End CapitalizeFacts.

(** ** Generators *)

(** C1. When every draw is 0, [generate] returns the number made of zeros
    only, for CPF and for CNPJ: its check digits are right, but the number
    is a reserved one, and [isValid] rejects it. The reserved numbers are
    the only ones a generator can return that [isValid] rejects
    ([cpf_generate_valid_unless_reserved],
    [cnpj_generate_valid_unless_reserved]). *)
Theorem generate_reserved_number (tbl : Store) :
  Cpf.generate tbl Sample.allZero None 0 = Ok ("00000000000", 9%nat)
  /\ Cpf.isValidChecksum "00000000000" = true
  /\ Cpf.isValid (VString "00000000000") = false
  /\ Cnpj.generate Sample.allZero 0 = ("00000000000000", 12%nat)
  /\ Cnpj.isValidChecksum "00000000000000" = true
  /\ Cnpj.isValid (VString "00000000000000") = false.
Proof. repeat split; vm_compute; reflexivity. Qed.


(** ** The cases the documentation gives *)

Section DocumentedCases.

Example cep_format_case : Cep.format "01310100" = "01310-100".
Proof. reflexivity. Qed.

Example cep_isValid_cases :
  Cep.isValid (VString "01310100") = true /\ Cep.isValid (VString "123") = false.
Proof. split; reflexivity. Qed.

Example cpf_isValid_cases :
  Cpf.isValid (VString "11144477735") = true
  /\ Cpf.isValid (VString "111.444.777-35") = true
  /\ Cpf.isValid (VString "11111111111") = false.
Proof. repeat split; vm_compute; reflexivity. Qed.

Example cnpj_format_case :
  Cnpj.format (VString "11222333000181") {| Cnpj.pad := false |} = "11.222.333/0001-81".
Proof. vm_compute; reflexivity. Qed.

Example cnpj_isValid_case : Cnpj.isValid (VString "11.222.333/0001-81") = true.
Proof. vm_compute; reflexivity. Qed.

Example pis_isValid_cases :
  Pis.isValid (VString "120.56874.10-7") = true
  /\ Pis.isValid (VString "00000000000") = false
  /\ Pis.isValid (VString "123") = false.
Proof. repeat split; vm_compute; reflexivity. Qed.

Example boleto_format_case :
  Boleto.format "23790123016000000005325000456708"
  = "23790.12301 60000.000053 25000.456708".
Proof. vm_compute; reflexivity. Qed.

Example processo_isValid_case :
  ProcessoJuridico.isValid (VString "0002080-25.2012.5.15.0049") = true.
Proof. vm_compute; reflexivity. Qed.

Example currency_parse_cases :
  Currency.parse (VString "R$ 1.234,56") = Ok (Currency.Hundredths 123456)
  /\ Currency.parse (VString "") = Ok (Currency.Hundredths 0)
  /\ Currency.parse (VString "99999999999999999") = Ok Currency.Rounded.
Proof. repeat split; reflexivity. Qed.

Example currency_format_case :
  Currency.format (fun (_ : unit) (_ : Z) => "1234.56") tt Currency.defaultOptions
  = Ok "1.234,56".
Proof. reflexivity. Qed.

Example email_isValid_cases :
  Email.isValid (VString "user@example.com") = true
  /\ Email.isValid (VString "user@example") = false.
Proof. split; vm_compute; reflexivity. Qed.

Example phone_isValid_cases :
  Phone.isValid Sample.tables (VString "(11) 98765-4321") = true
  /\ Phone.isValid Sample.tables (VString "1140028922") = true
  /\ Phone.isValid Sample.tables (VString "1190028922") = false
  /\ Phone.isValid Sample.tables (VString "123") = false.
Proof. repeat split; vm_compute; reflexivity. Qed.

Example getCities_cases :
  fst (Cities.getCities Sample.compareChars (Some "XX") Sample.tables)
  = Ok (Cities.NewArray [])
  /\ fst (Cities.getCities Sample.compareChars None Sample.tables)
     = Ok (Cities.NewArray ["Bujari"; "Campinas"; "Rio Branco"; "Santos"]).
Proof. split; vm_compute; reflexivity. Qed.

Example getStates_case :
  fst (States.getStates Sample.compareChars Sample.tables)
  = Ok [ {| States.code := "AC"; States.name := "Acre" |};
         {| States.code := "SP"; States.name := "Sao Paulo" |} ].
Proof. vm_compute; reflexivity. Qed.

End DocumentedCases.


(** * Further properties of the code *)

Import Notions.

(** ** Validators that read the digits only *)

Section DigitsOnly.

Lemma onlyNumbers_idempotent (s : string) : onlyNumbers (onlyNumbers s) = onlyNumbers s.
Proof. apply onlyNumbers_allDigits, allDigits_onlyNumbers. Qed.

(** A validator that guards against the empty string and then reads the
    digits gives the same answer on the digits alone, when it rejects the
    string without digits. *)
Lemma guarded_reads_digits (check : string -> bool) (s : string) :
  check "" = false ->
  (if negb (truthy (VString s)) then false else check (onlyNumbers s))
  = (if negb (truthy (VString (onlyNumbers s))) then false
     else check (onlyNumbers (onlyNumbers s))).
Proof.
  intros Hempty. rewrite onlyNumbers_idempotent. cbn [truthy].
  destruct (String.eqb_spec s "") as [->|Hs]; [reflexivity|].
  destruct (String.eqb_spec (onlyNumbers s) "") as [E|_]; [|reflexivity].
  rewrite E. cbn [negb]. assumption.
Qed.

Lemma cep_isValid_length (s : string) :
  Cep.isValid (VString s) = (String.length (onlyNumbers s) =? 8)%nat.
Proof.
  unfold Cep.isValid. cbn [truthy].
  destruct (String.eqb_spec s "") as [->|_]; reflexivity.
Qed.

Lemma boleto_reads_digits (s : string) :
  Boleto.isValid (VString s) = Boleto.isValid (VString (onlyNumbers s)).
Proof.
  unfold Boleto.isValid.
  apply (guarded_reads_digits
           (fun d => if negb (Boleto.isValidLength d) then false
                     else if negb (Boleto.isValidPartials d) then false
                          else Boleto.isValidCheckDigit (Boleto.parse d))).
  reflexivity.
Qed.

Lemma processo_reads_digits (s : string) :
  ProcessoJuridico.isValid (VString s)
  = ProcessoJuridico.isValid (VString (onlyNumbers s)).
Proof.
  unfold ProcessoJuridico.isValid.
  apply (guarded_reads_digits
           (fun d => if negb (String.length d =? ProcessoJuridico.LENGTH)%nat then false
                     else ProcessoJuridico.verifyDigit d)).
  reflexivity.
Qed.

Lemma phone_reads_digits (tbl : Store) (s : string) :
  Phone.isValid tbl (VString s) = Phone.isValid tbl (VString (onlyNumbers s)).
Proof.
  unfold Phone.isValid, Phone.parsePhoneDigits, onlyNumbersOf.
  cbn [isString toString]. rewrite !andb_true_r.
  apply (guarded_reads_digits
           (fun d => Phone.isValidLength d && Phone.isValidFirstNumber d
                     && Phone.isValidDDD tbl d)).
  reflexivity.
Qed.

(** X1. The validators of CEP, boleto, processo jurídico and phone read
    nothing but the digits of their argument: a string and the string of
    its digits get the same answer, whatever else the string holds. *)
Theorem isValid_reads_digits_only (tbl : Store) (s : string) :
  Cep.isValid (VString s) = Cep.isValid (VString (onlyNumbers s))
  /\ Boleto.isValid (VString s) = Boleto.isValid (VString (onlyNumbers s))
  /\ ProcessoJuridico.isValid (VString s)
     = ProcessoJuridico.isValid (VString (onlyNumbers s))
  /\ Phone.isValid tbl (VString s) = Phone.isValid tbl (VString (onlyNumbers s)).
Proof.
  split; [|split; [|split]].
  - rewrite !cep_isValid_length, onlyNumbers_idempotent. reflexivity.
  - apply boleto_reads_digits.
  - apply processo_reads_digits.
  - apply phone_reads_digits.
Qed.

Lemma format_digits_cep (s : string) :
  onlyNumbers (Cep.format s) = take Cep.LENGTH (onlyNumbers s).
Proof.
  rewrite cep_format_weave.
  apply strip_weave; [apply cepSeparators_strip | apply allDigits_onlyNumbers].
Qed.

Lemma format_digits_boleto (s : string) :
  onlyNumbers (Boleto.format s) = take Boleto.LENGTH (onlyNumbers s).
Proof.
  rewrite boleto_format_weave.
  apply strip_weave; [apply boletoSeparators_strip | apply allDigits_onlyNumbers].
Qed.

Lemma format_digits_processo (s : string) :
  onlyNumbers (ProcessoJuridico.format s) = take ProcessoJuridico.LENGTH (onlyNumbers s).
Proof.
  rewrite processo_format_weave.
  apply strip_weave; [apply processoSeparators_strip | apply allDigits_onlyNumbers].
Qed.

Lemma take_onlyNumbers (n : nat) (s : string) :
  onlyNumbers (take n (onlyNumbers s)) = take n (onlyNumbers s).
Proof. apply onlyNumbers_allDigits, allDigits_take, allDigits_onlyNumbers. Qed.

(** X2. Validating what [format] returns is validating the first digits of
    the argument, as many as the identifier has: for CEP, boleto and
    processo jurídico. So a CEP with 8 digits or more is valid once
    formatted, though with more than 8 it is not valid as it stands. *)
Theorem isValid_of_format (s : string) :
  Cep.isValid (VString (Cep.format s)) = (8 <=? String.length (onlyNumbers s))%nat
  /\ Cep.isValid (VString s) = (String.length (onlyNumbers s) =? 8)%nat
  /\ Boleto.isValid (VString (Boleto.format s))
     = Boleto.isValid (VString (take Boleto.LENGTH (onlyNumbers s)))
  /\ ProcessoJuridico.isValid (VString (ProcessoJuridico.format s))
     = ProcessoJuridico.isValid (VString (take ProcessoJuridico.LENGTH (onlyNumbers s))).
Proof.
  repeat split.
  - rewrite cep_isValid_length, format_digits_cep, length_take.
    unfold Cep.LENGTH.
    destruct (Nat.leb_spec 8 (String.length (onlyNumbers s)));
      [apply Nat.eqb_eq | apply Nat.eqb_neq]; lia.
  - apply cep_isValid_length.
  - rewrite boleto_reads_digits, format_digits_boleto.
    rewrite (boleto_reads_digits (take Boleto.LENGTH (onlyNumbers s))), take_onlyNumbers.
    reflexivity.
  - rewrite processo_reads_digits, format_digits_processo.
    rewrite (processo_reads_digits (take ProcessoJuridico.LENGTH (onlyNumbers s))),
      take_onlyNumbers.
    reflexivity.
Qed.

End DigitsOnly.


(** ** Phone: landline or mobile, and the area code *)

Section PhoneKinds.

Variable tbl : Store.

(** X3. A phone is valid exactly when it is a valid landline phone or a
    valid mobile phone, and it is never both. *)
Theorem phone_isValid_landline_or_mobile (phone : JsValue) :
  Phone.isValid tbl phone
  = Phone.isValidLandlinePhone tbl phone || Phone.isValidMobilePhone tbl phone
  /\ Phone.isValidLandlinePhone tbl phone && Phone.isValidMobilePhone tbl phone = false.
Proof.
  unfold Phone.isValid, Phone.isValidLandlinePhone, Phone.isValidMobilePhone.
  destruct (Phone.parsePhoneDigits phone) as [isValidDigits digits].
  destruct isValidDigits; cbn [negb]; [|split; reflexivity].
  unfold Phone.isValidLength, Phone.isValidFirstNumber,
    Phone.isValidLandlinePhoneLength, Phone.isValidMobilePhoneLength,
    Phone.PHONE_MIN_LENGTH, Phone.PHONE_MAX_LENGTH.
  set (n := Phone.len digits).
  destruct (Phone.isValidLandlinePhoneFirstNumber digits),
    (Phone.isValidMobilePhoneFirstNumber digits), (Phone.isValidDDD tbl digits),
    (Z.eqb_spec n 10), (Z.eqb_spec n 11), (Z.leb_spec 10 n), (Z.ltb_spec n 11);
    cbn [andb orb]; split; try reflexivity; lia.
Qed.

Lemma area_codes_from_states (z : Z) (l : list string) :
  forall acc i,
    In z (reduceFrom (fun (acc : list Z) state (_ : Z) =>
                        match prop (STATES_DATA tbl) state with
                        | Some data => (acc ++ areaCodes data)%list
                        | None => acc
                        end) l acc i) ->
    In z acc \/ exists state data,
                  prop (STATES_DATA tbl) state = Some data /\ In z (areaCodes data).
Proof.
  induction l as [|st l IH]; intros acc i H; cbn [reduceFrom] in H; [now left|].
  apply IH in H as [H|H]; [|now right].
  destruct (prop (STATES_DATA tbl) st) as [data|] eqn:E; [|now left].
  apply in_app_or in H as [H|H]; [now left|].
  right. exists st, data. now split.
Qed.

(** X4. The two digits a valid phone starts with are an area code of one
    of the states of the table. *)
Theorem phone_isValid_area_code (s : string)
        (Hvalid : Phone.isValid tbl (VString s) = true) :
  exists state data,
    prop (STATES_DATA tbl) state = Some data
    /\ In (decimalFrom 0 (take 2 (onlyNumbers s))) (areaCodes data).
Proof.
  unfold Phone.isValid, Phone.parsePhoneDigits in Hvalid.
  change (onlyNumbersOf (VString s)) with (onlyNumbers s) in Hvalid.
  set (digits := onlyNumbers s) in *.
  destruct (truthy (VString s) && isString (VString s)); cbn [negb] in Hvalid;
    [|discriminate].
  apply andb_true_iff in Hvalid as [Hvalid Hddd].
  apply andb_true_iff in Hvalid as [Hlength _].
  assert (Hlen : (2 <= String.length digits)%nat).
  { unfold Phone.isValidLength, Phone.isValidLandlinePhoneLength,
      Phone.isValidMobilePhoneLength, Phone.len, Phone.PHONE_MIN_LENGTH,
      Phone.PHONE_MAX_LENGTH in Hlength.
    apply orb_true_iff in Hlength as [H|H].
    - apply andb_true_iff in H as [H _]. apply Z.leb_le in H. lia.
    - apply Z.eqb_eq in H. lia. }
  unfold Phone.isValidDDD, substr in Hddd.
  change (Z.to_nat 2) with 2%nat in Hddd.
  replace (drop 0 digits) with digits in Hddd by (now destruct digits).
  rewrite toNumber_digits in Hddd.
  - apply includes_In in Hddd. unfold Phone.VALID_AREA_CODES, reduce in Hddd.
    apply area_codes_from_states in Hddd as [[]|H]. exact H.
  - apply allDigits_take, allDigits_onlyNumbers.
  - intros E. apply (f_equal String.length) in E.
    rewrite length_take in E. cbn [String.length] in E. lia.
Qed.

End PhoneKinds.

Lemma phone_isValid_area_code_witness :
  exists state data,
    prop (STATES_DATA Sample.tables) state = Some data
    /\ In (decimalFrom 0 (take 2 (onlyNumbers "(11) 98765-4321"))) (areaCodes data).
Proof.
  apply (phone_isValid_area_code Sample.tables "(11) 98765-4321"). reflexivity.
Defined.


(** ** CPF and CNPJ: what a valid number is *)

Section TaxpayerNumbers.

Lemma matches_seq (r1 r2 : regex) (s : string) :
  matches (Seq r1 r2) s ->
  exists s1 s2, s = s1 ++ s2 /\ matches r1 s1 /\ matches r2 s2.
Proof. intros H. inversion H; subst. eauto. Qed.

Lemma matches_eps (s : string) : matches Eps s -> s = "".
Proof. intros H. now inversion H. Qed.

Lemma matches_rep_digits_inv (n : nat) :
  forall s, matches (Rep n Digit) s -> allDigits s = true /\ String.length s = n.
Proof.
  induction n as [|n IH]; intros s H; cbn [Rep] in H.
  - apply matches_eps in H as ->. now split.
  - apply matches_seq in H as (s1 & s2 & -> & H1 & H2).
    apply IH in H2 as [Hd Hl].
    inversion H1 as [|p c Hc| | | | |]; subst.
    cbn [str append allDigits String.length]. rewrite Hc, Hd. now split.
Qed.

Lemma matches_opt_chr (c : ascii) (s : string) :
  matches (Opt (Chr c)) s -> s = "" \/ s = str c.
Proof.
  intros H. inversion H as [| | |r1 r2 t Ht|r1 r2 t Ht| |]; subst.
  - inversion Ht as [|p d Hd| | | | |]; subst.
    apply Ascii.eqb_eq in Hd. subst. now right.
  - apply matches_eps in Ht. now left.
Qed.

(** A group of digits and an optional separator that is not a digit. *)
Lemma matches_group (n : nat) (c : ascii) (r : regex) (s : string) :
  isDigit c = false ->
  matches (Seq (Rep n Digit) (Seq (Opt (Chr c)) r)) s ->
  exists a t, allDigits a = true /\ String.length a = n /\ matches r t
              /\ onlyNumbers s = a ++ onlyNumbers t.
Proof.
  intros Hc H.
  apply matches_seq in H as (a & s' & -> & Ha & H).
  apply matches_seq in H as (o & t & -> & Ho & Ht).
  apply matches_rep_digits_inv in Ha as [Hd Hl].
  exists a, t. repeat split; try assumption.
  rewrite !onlyNumbers_append, (onlyNumbers_allDigits _ Hd).
  apply matches_opt_chr in Ho as [->| ->]; cbn [str onlyNumbers]; [reflexivity|].
  now rewrite Hc.
Qed.

Lemma matches_last_group (n : nat) (s : string) :
  matches (Seq (Rep n Digit) Eps) s ->
  allDigits s = true /\ String.length s = n.
Proof.
  intros H. apply matches_seq in H as (a & e & -> & Ha & He).
  apply matches_eps in He as ->. rewrite append_empty_r.
  now apply matches_rep_digits_inv.
Qed.

(** A string in the format of a CPF holds 11 digits. *)
Lemma cpf_format_11_digits (s : string) :
  Cpf.isValidFormat s = true -> String.length (onlyNumbers s) = 11%nat.
Proof.
  unfold Cpf.isValidFormat, Cpf.formatPattern. rewrite test_matches. cbn [SeqAll].
  intros H.
  apply matches_group in H as (a & t1 & _ & La & H & ->); [|reflexivity].
  apply matches_group in H as (b & t2 & _ & Lb & H & ->); [|reflexivity].
  apply matches_group in H as (c & t3 & _ & Lc & H & ->); [|reflexivity].
  apply matches_last_group in H as [Hd Ld].
  rewrite (onlyNumbers_allDigits _ Hd), !length_append, La, Lb, Lc, Ld. reflexivity.
Qed.

(** A string in the format of a CNPJ holds 14 digits. *)
Lemma cnpj_format_14_digits (s : string) :
  Cnpj.isValidFormat s = true -> String.length (onlyNumbers s) = 14%nat.
Proof.
  unfold Cnpj.isValidFormat, Cnpj.formatPattern. rewrite test_matches. cbn [SeqAll].
  intros H.
  apply matches_group in H as (a & t1 & _ & La & H & ->); [|reflexivity].
  apply matches_group in H as (b & t2 & _ & Lb & H & ->); [|reflexivity].
  apply matches_group in H as (c & t3 & _ & Lc & H & ->); [|reflexivity].
  apply matches_group in H as (d & t4 & _ & Ld & H & ->); [|reflexivity].
  apply matches_last_group in H as [He Le].
  rewrite (onlyNumbers_allDigits _ He), !length_append, La, Lb, Lc, Ld, Le. reflexivity.
Qed.

(** With a single weight, the checksum is the weighted sum with the
    weights going down from it. *)
Lemma reduce_descending_weights (w : Z) (l : list ascii) :
  Forall (fun c => isDigit c = true) l ->
  forall a i,
    reduceFrom (fun acc digit j => add acc (mul (parseInt (str digit)) (Some (w - j))))
               l (Some a) i
    = Some (a + weightedSum (descending (w - i) (List.length l)) (map digitValue l)).
Proof.
  induction 1 as [|c l Hc Hl IH]; intros a i.
  - cbn. f_equal. lia.
  - cbn [reduceFrom]. rewrite (parseInt_digit _ Hc). cbn [mul add lift2].
    rewrite IH. cbn [List.length descending map weightedSum].
    replace (w - (i + 1)) with (w - i - 1) by lia. f_equal. lia.
Qed.

Lemma generateChecksum_descending (w : Z) (base : string) :
  allDigits base = true ->
  generateChecksum base (WNumber w)
  = Some (weightedSum (descending w (String.length base)) (digitsOf base)).
Proof.
  intros Hd. unfold generateChecksum, reduce.
  rewrite (onlyNumbers_allDigits _ Hd).
  rewrite reduce_descending_weights by now apply allDigits_chars.
  rewrite length_chars, Z.sub_0_r. reflexivity.
Qed.

Lemma digit_prints_itself (c : ascii) :
  isDigit c = true -> intToString (digitValue c) = str c.
Proof.
  destruct c as [[] [] [] [] [] [] [] []]; intros H;
    try discriminate H; reflexivity.
Qed.

Lemma intToString_injective (u v : Z) :
  0 <= u <= 9 -> 0 <= v <= 9 -> intToString u = intToString v -> u = v.
Proof.
  intros Hu Hv.
  assert (Eu : u = 0 \/ u = 1 \/ u = 2 \/ u = 3 \/ u = 4 \/ u = 5 \/ u = 6
               \/ u = 7 \/ u = 8 \/ u = 9) by lia.
  assert (Ev : v = 0 \/ v = 1 \/ v = 2 \/ v = 3 \/ v = 4 \/ v = 5 \/ v = 6
               \/ v = 7 \/ v = 8 \/ v = 9) by lia.
  repeat (destruct Eu as [->|Eu]); try subst u;
    repeat (destruct Ev as [->|Ev]); try subst v;
    intros E; try reflexivity; discriminate E.
Qed.

Lemma mod11Digit_range (S : Z) : 0 <= mod11Digit S <= 9.
Proof.
  unfold mod11Digit. pose proof (Z.mod_pos_bound S 11 ltac:(lia)).
  destruct (Z.ltb_spec (S mod 11) 2); lia.
Qed.

(** Comparing a digit of the string with the check digit the code prints
    is comparing its value with the check digit of the sum. *)
Lemma check_digit_test (d : string) (i : nat) (S : Z) :
  allDigits d = true -> (i < String.length d)%nat -> 0 <= S ->
  strictEq (index d i) (Cpf.checkDigit (rem (Some S) (Some 11)))
  = (nth i (digitsOf d) 0 =? mod11Digit S).
Proof.
  intros Hd Hi HS.
  destruct (drop_nth_digit d i Hd Hi) as (c & E1 & Hc & E2).
  assert (Ei : index d i = Some (str c)).
  { unfold index. destruct (drop i d) as [|c' rest]; [discriminate E1|].
    cbn [take] in E1. destruct rest; now injection E1 as ->. }
  rewrite Ei, E2. cbn [strictEq].
  assert (Ec : Cpf.checkDigit (rem (Some S) (Some 11)) = intToString (mod11Digit S)).
  { unfold Cpf.checkDigit, mod11Digit. cbn [rem]. change (11 =? 0) with false. cbv iota.
    rewrite Z.rem_mod_nonneg by lia. cbn [lt sub lift2].
    destruct (S mod 11 <? 2); reflexivity. }
  rewrite Ec, <- (digit_prints_itself _ Hc).
  destruct (Z.eqb_spec (digitValue c) (mod11Digit S)) as [E|E].
  - rewrite E. apply String.eqb_refl.
  - apply String.eqb_neq. intros F. apply E.
    apply intToString_injective;
      [apply isDigit_range; assumption | apply mod11Digit_range | assumption].
Qed.

Lemma digitsOf_take (n : nat) (s : string) :
  digitsOf (take n s) = firstn n (digitsOf s).
Proof. unfold digitsOf. rewrite chars_take. symmetry. apply firstn_map. Qed.

Lemma descending_nonneg (n : nat) :
  forall w, Z.of_nat n <= w + 1 -> Forall (fun x => 0 <= x) (descending w n).
Proof.
  induction n as [|n IH]; intros w H; cbn [descending]; constructor; [lia|].
  apply IH. lia.
Qed.

(** X5. A CPF is valid exactly when it has the format of a CPF, is no
    reserved number, and its last two digits are the mod-11 check digits:
    the tenth digit for the first nine weighted 10 down to 2, the eleventh
    for the first ten weighted 11 down to 2. *)
Theorem cpf_isValid_check_digits (s : string) :
  let digits := digitsOf (onlyNumbers s) in
  Cpf.isValid (VString s)
  = Cpf.isValidFormat s
    && negb (Cpf.isReservedNumber (onlyNumbers s))
    && ((nth 9 digits 0 =? mod11Digit (weightedSum (descending 10 9) (firstn 9 digits)))
        && (nth 10 digits 0
            =? mod11Digit (weightedSum (descending 11 10) (firstn 10 digits)))).
Proof.
  intros digits. unfold Cpf.isValid. cbn [truthy].
  destruct (String.eqb_spec s "") as [->|_]; [reflexivity|]. cbn [negb].
  destruct (Cpf.isValidFormat s) eqn:Hf; [|reflexivity].
  f_equal.
  pose proof (cpf_format_11_digits s Hf) as Hl.
  pose proof (allDigits_onlyNumbers s) as Hd.
  set (d := onlyNumbers s) in *.
  unfold Cpf.isValidChecksum, Cpf.CHECK_DIGITS_INDEXES. cbn [forallb].
  rewrite !reduce_appendDigit, andb_true_r.
  unfold slice. cbn [Nat.sub].
  replace (drop 0 d) with d by (now destruct d).
  rewrite !generateChecksum_descending by now apply allDigits_take.
  rewrite !length_take, Hl. cbn [Nat.min].
  change (Z.of_nat 9 + 1) with 10. change (Z.of_nat 10 + 1) with 11.
  rewrite !digitsOf_take. fold digits.
  rewrite !check_digit_test; try assumption; try (rewrite Hl; lia).
  - reflexivity.
  - apply weightedSum_nonneg; [apply descending_nonneg; lia|].
    unfold digits. rewrite <- digitsOf_take. apply digitsOf_nonneg.
    now apply allDigits_take.
  - apply weightedSum_nonneg; [apply descending_nonneg; lia|].
    unfold digits. rewrite <- digitsOf_take. apply digitsOf_nonneg.
    now apply allDigits_take.
Qed.


(** X6. A CNPJ is valid exactly when it has the format of a CNPJ, is no
    reserved number, and its last two digits are the mod-11 check digits:
    the thirteenth digit for the first twelve under the first table of
    weights, the fourteenth for the first thirteen under the second. *)
Theorem cnpj_isValid_check_digits (s : string) :
  let digits := digitsOf (onlyNumbers s) in
  Cnpj.isValid (VString s)
  = Cnpj.isValidFormat s
    && negb (Cnpj.isReservedNumber (onlyNumbers s))
    && ((nth 12 digits 0
         =? mod11Digit (weightedSum Cnpj.FIRST_CHECK_DIGIT_WEIGHTS (firstn 12 digits)))
        && (nth 13 digits 0
            =? mod11Digit (weightedSum Cnpj.SECOND_CHECK_DIGIT_WEIGHTS
                                       (firstn 13 digits)))).
Proof.
  intros digits. unfold Cnpj.isValid. cbn [truthy].
  destruct (String.eqb_spec s "") as [->|_]; [reflexivity|]. cbn [negb].
  destruct (Cnpj.isValidFormat s) eqn:Hf; [|reflexivity].
  f_equal.
  pose proof (cnpj_format_14_digits s Hf) as Hl.
  pose proof (allDigits_onlyNumbers s) as Hd.
  set (d := onlyNumbers s) in *.
  unfold Cnpj.isValidChecksum, Cnpj.CHECK_DIGITS_INDEXES.
  cbn [everyWith last Nat.eqb].
  change (6 :: Cnpj.FIRST_CHECK_DIGIT_WEIGHTS) with Cnpj.SECOND_CHECK_DIGIT_WEIGHTS.
  change Cnpj.checkDigit with Cpf.checkDigit.
  rewrite !reduce_appendDigit.
  unfold slice. cbn [Nat.sub].
  replace (drop 0 d) with d by (now destruct d).
  rewrite !generateChecksum_table;
    try (now apply allDigits_take);
    try (rewrite length_take, Hl; cbn; lia).
  rewrite !digitsOf_take. fold digits.
  rewrite !check_digit_test; try assumption; try (rewrite Hl; lia).
  - subst digits.
    destruct (nth 12 _ 0 =? _); [|reflexivity].
    destruct (nth 13 _ 0 =? _); reflexivity.
  - apply weightedSum_nonneg; [repeat constructor; lia|].
    unfold digits. rewrite <- digitsOf_take. apply digitsOf_nonneg.
    now apply allDigits_take.
  - apply weightedSum_nonneg; [repeat constructor; lia|].
    unfold digits. rewrite <- digitsOf_take. apply digitsOf_nonneg.
    now apply allDigits_take.
Qed.

End TaxpayerNumbers.


(** ** CPF and CNPJ: the base decides the check digits *)

Section CheckDigitsDecided.

Lemma strictEq_true (x : option string) (t : string) :
  strictEq x t = true -> x = Some t.
Proof.
  destruct x as [u|]; cbn [strictEq]; [|discriminate].
  intros H. apply String.eqb_eq in H. now subst.
Qed.

Lemma take_succ_index (s : string) :
  forall i u, index s i = Some u -> take (S i) s = take i s ++ u.
Proof.
  induction s as [|c s IH]; intros [|i] u H; unfold index in H; cbn [drop] in H;
    try discriminate.
  - injection H as <-. cbn [take append str]. now destruct s.
  - cbn [take append]. f_equal. apply IH. exact H.
Qed.

Lemma same_next_digit (a b : string) (i : nat) (u : string) :
  take i a = take i b -> index a i = Some u -> index b i = Some u ->
  take (S i) a = take (S i) b.
Proof.
  intros E Ha Hb.
  rewrite (take_succ_index a i u Ha), (take_succ_index b i u Hb), E. reflexivity.
Qed.

Lemma cpf_checksum_decided (a b : string) :
  String.length a = 11%nat -> String.length b = 11%nat ->
  Cpf.isValidChecksum a = true -> Cpf.isValidChecksum b = true ->
  take 9 a = take 9 b -> a = b.
Proof.
  intros La Lb Ha Hb E9.
  unfold Cpf.isValidChecksum, Cpf.CHECK_DIGITS_INDEXES in Ha, Hb.
  cbn [forallb] in Ha, Hb. rewrite andb_true_r in Ha, Hb.
  apply andb_true_iff in Ha as [Ha9 Ha10]. apply andb_true_iff in Hb as [Hb9 Hb10].
  apply strictEq_true in Ha9, Ha10, Hb9, Hb10.
  unfold slice in *. cbn [Nat.sub] in *.
  replace (drop 0 a) with a in * by (now destruct a).
  replace (drop 0 b) with b in * by (now destruct b).
  rewrite <- E9 in Hb9.
  pose proof (same_next_digit a b 9 _ E9 Ha9 Hb9) as E10.
  rewrite <- E10 in Hb10.
  pose proof (same_next_digit a b 10 _ E10 Ha10 Hb10) as E11.
  rewrite (take_all 11 a), (take_all 11 b) in E11 by lia. exact E11.
Qed.

(** X7. Two valid CPFs with the same first nine digits have the same
    digits: the base decides both check digits. *)
Theorem cpf_base_decides_check_digits (a b : string)
        (Ha : Cpf.isValid (VString a) = true)
        (Hb : Cpf.isValid (VString b) = true)
        (Hbase : take 9 (onlyNumbers a) = take 9 (onlyNumbers b)) :
  onlyNumbers a = onlyNumbers b.
Proof.
  unfold Cpf.isValid in Ha, Hb.
  destruct (negb (truthy (VString a))); [discriminate|].
  destruct (negb (truthy (VString b))); [discriminate|].
  apply andb_true_iff in Ha as [Ha Hca]. apply andb_true_iff in Ha as [Hfa _].
  apply andb_true_iff in Hb as [Hb Hcb]. apply andb_true_iff in Hb as [Hfb _].
  apply cpf_checksum_decided; auto using cpf_format_11_digits.
Qed.

Lemma cpf_base_decides_check_digits_witness :
  onlyNumbers "111.444.777-35" = onlyNumbers "11144477735".
Proof.
  apply (cpf_base_decides_check_digits "111.444.777-35" "11144477735"); reflexivity.
Defined.

Lemma cnpj_checksum_decided (a b : string) :
  String.length a = 14%nat -> String.length b = 14%nat ->
  Cnpj.isValidChecksum a = true -> Cnpj.isValidChecksum b = true ->
  take 12 a = take 12 b -> a = b.
Proof.
  intros La Lb Ha Hb E12.
  unfold Cnpj.isValidChecksum, Cnpj.CHECK_DIGITS_INDEXES in Ha, Hb.
  cbn [everyWith last Nat.eqb] in Ha, Hb.
  destruct (strictEq (index a 12) _) eqn:Ha12 in Ha; [|discriminate].
  destruct (strictEq (index b 12) _) eqn:Hb12 in Hb; [|discriminate].
  destruct (strictEq (index a 13) _) eqn:Ha13 in Ha; [|discriminate].
  destruct (strictEq (index b 13) _) eqn:Hb13 in Hb; [|discriminate].
  apply strictEq_true in Ha12, Ha13, Hb12, Hb13.
  unfold slice in *. cbn [Nat.sub] in *.
  replace (drop 0 a) with a in * by (now destruct a).
  replace (drop 0 b) with b in * by (now destruct b).
  rewrite <- E12 in Hb12.
  pose proof (same_next_digit a b 12 _ E12 Ha12 Hb12) as E13.
  rewrite <- E13 in Hb13.
  pose proof (same_next_digit a b 13 _ E13 Ha13 Hb13) as E14.
  rewrite (take_all 14 a), (take_all 14 b) in E14 by lia. exact E14.
Qed.

(** X8. Two valid CNPJs with the same first twelve digits have the same
    digits. *)
Theorem cnpj_base_decides_check_digits (a b : string)
        (Ha : Cnpj.isValid (VString a) = true)
        (Hb : Cnpj.isValid (VString b) = true)
        (Hbase : take 12 (onlyNumbers a) = take 12 (onlyNumbers b)) :
  onlyNumbers a = onlyNumbers b.
Proof.
  unfold Cnpj.isValid in Ha, Hb.
  destruct (negb (truthy (VString a))); [discriminate|].
  destruct (negb (truthy (VString b))); [discriminate|].
  apply andb_true_iff in Ha as [Ha Hca]. apply andb_true_iff in Ha as [Hfa _].
  apply andb_true_iff in Hb as [Hb Hcb]. apply andb_true_iff in Hb as [Hfb _].
  apply cnpj_checksum_decided; auto using cnpj_format_14_digits.
Qed.

Lemma cnpj_base_decides_check_digits_witness :
  onlyNumbers "11.222.333/0001-81" = onlyNumbers "11222333000181".
Proof.
  apply (cnpj_base_decides_check_digits "11.222.333/0001-81" "11222333000181");
    reflexivity.
Defined.

End CheckDigitsDecided.


(** ** CPF and CNPJ: formatting and validity *)

Section FormatKeepsValidity.

Lemma matches_chr (c : ascii) : matches (Opt (Chr c)) (str c).
Proof. apply MAltL. constructor. apply Ascii.eqb_refl. Qed.

Lemma padStart0_full (n : nat) (s : string) :
  String.length s = n -> padStart0 n s = s.
Proof. intros H. unfold padStart0. rewrite H, Nat.sub_diag. reflexivity. Qed.

(** Eleven digits with the dots and the dash are in the format of a CPF. *)
Lemma cpf_formatted_format (d : string) :
  allDigits d = true -> String.length d = 11%nat ->
  Cpf.isValidFormat (positionalFormat cpfSeparators Cpf.LENGTH d) = true.
Proof.
  intros Hd Hl. unfold Cpf.isValidFormat. apply test_matches.
  do 11 (destruct d as [|? d]; [discriminate|]). destruct d; [|discriminate].
  match goal with
  | |- matches _ ?t =>
      let t' := eval vm_compute in t in change t with t'
  end.
  match goal with
  | |- matches _ (String ?a (String ?b (String ?c (String ?p
                    (String ?e (String ?f (String ?g (String ?q
                       (String ?h (String ?i (String ?j (String ?r
                          (String ?k (String ?l "")))))))))))))) =>
      change (matches Cpf.formatPattern
                      (String a (String b (str c)) ++ str p
                       ++ String e (String f (str g)) ++ str q
                       ++ String h (String i (str j)) ++ str r
                       ++ String k (str l) ++ ""))
  end.
  unfold Cpf.formatPattern. cbn [SeqAll].
  cbn [allDigits] in Hd.
  repeat match type of Hd with
         | _ && _ = true => apply andb_true_iff in Hd as [? Hd]
         end.
  repeat (constructor; try apply matches_chr);
    apply matches_rep_digits; try reflexivity; cbn [allDigits str];
    repeat match goal with H : isDigit _ = true |- _ => rewrite H; clear H end;
    reflexivity.
Qed.

(** Fourteen digits with the dots, the slash and the dash are in the
    format of a CNPJ. *)
Lemma cnpj_formatted_format (d : string) :
  allDigits d = true -> String.length d = 14%nat ->
  Cnpj.isValidFormat (positionalFormat cnpjSeparators Cnpj.LENGTH d) = true.
Proof.
  intros Hd Hl. unfold Cnpj.isValidFormat. apply test_matches.
  do 14 (destruct d as [|? d]; [discriminate|]). destruct d; [|discriminate].
  match goal with
  | |- matches _ ?t =>
      let t' := eval vm_compute in t in change t with t'
  end.
  match goal with
  | |- matches _ (String ?a (String ?b (String ?p
                    (String ?c (String ?e (String ?f (String ?q
                       (String ?g (String ?h (String ?i (String ?r
                          (String ?j (String ?k (String ?l (String ?m (String ?t
                             (String ?n (String ?o "")))))))))))))))))) =>
      change (matches Cnpj.formatPattern
                      (String a (str b) ++ str p
                       ++ String c (String e (str f)) ++ str q
                       ++ String g (String h (str i)) ++ str r
                       ++ String j (String k (String l (str m))) ++ str t
                       ++ String n (str o) ++ ""))
  end.
  unfold Cnpj.formatPattern. cbn [SeqAll].
  cbn [allDigits] in Hd.
  repeat match type of Hd with
         | _ && _ = true => apply andb_true_iff in Hd as [? Hd]
         end.
  repeat (constructor; try apply matches_chr);
    apply matches_rep_digits; try reflexivity; cbn [allDigits str];
    repeat match goal with H : isDigit _ = true |- _ => rewrite H; clear H end;
    reflexivity.
Qed.

Lemma nonempty_of_length (s : string) (n : nat) :
  String.length s = S n -> String.eqb s "" = false.
Proof. destruct s; [discriminate | reflexivity]. Qed.

(** X9. Formatting a string that holds the 11 digits of a CPF, or the 14
    of a CNPJ, gives a string that is valid exactly when the digits alone
    are: the punctuation [format] writes is the one [isValid] accepts,
    whatever punctuation the argument had. *)
Theorem format_keeps_validity (cpf cnpj : string) (pad : bool)
        (Hcpf : String.length (onlyNumbers cpf) = 11%nat)
        (Hcnpj : String.length (onlyNumbers cnpj) = 14%nat) :
  Cpf.isValid (VString (Cpf.format (VString cpf) {| Cpf.pad := pad |}))
  = Cpf.isValid (VString (onlyNumbers cpf))
  /\ Cnpj.isValid (VString (Cnpj.format (VString cnpj) {| Cnpj.pad := pad |}))
     = Cnpj.isValid (VString (onlyNumbers cnpj)).
Proof.
  split.
  - destruct (formatters_follow_tables cpf pad) as (E & _).
    cbv zeta in E. rewrite E.
    replace (if pad then padStart0 Cpf.LENGTH (onlyNumbers cpf) else onlyNumbers cpf)
      with (onlyNumbers cpf) by (destruct pad; [now rewrite padStart0_full | reflexivity]).
    pose proof (allDigits_onlyNumbers cpf) as Hd.
    set (d := onlyNumbers cpf) in *.
    assert (Ho : onlyNumbers (positionalFormat cpfSeparators Cpf.LENGTH d) = d).
    { rewrite <- weave_positionalFormat by (unfold cpfSeparators; intros j Hj;
        cbv delta [Cpf.LENGTH] in Hj;
        repeat match goal with
               | |- context [Z.eqb ?a ?b] => destruct (Z.eqb_spec a b); cbn [orb]
               end; try reflexivity; lia).
      rewrite strip_weave by (auto using cpfSeparators_strip).
      apply take_all. unfold Cpf.LENGTH. lia. }
    unfold Cpf.isValid. cbn [truthy]. rewrite Ho, (onlyNumbers_allDigits _ Hd).
    rewrite (cpf_formatted_format _ Hd Hcpf), (cpf_isValidFormat_digits _ Hd Hcpf).
    rewrite (nonempty_of_length d 10 Hcpf).
    destruct (String.eqb_spec (positionalFormat cpfSeparators Cpf.LENGTH d) "") as [F|_];
      [|reflexivity].
    rewrite F in Ho. rewrite <- Ho in Hcpf. discriminate.
  - destruct (formatters_follow_tables cnpj pad) as (_ & E & _).
    cbv zeta in E. rewrite E.
    replace (if pad then padStart0 Cnpj.LENGTH (onlyNumbers cnpj) else onlyNumbers cnpj)
      with (onlyNumbers cnpj) by (destruct pad; [now rewrite padStart0_full | reflexivity]).
    pose proof (allDigits_onlyNumbers cnpj) as Hd.
    set (d := onlyNumbers cnpj) in *.
    assert (Ho : onlyNumbers (positionalFormat cnpjSeparators Cnpj.LENGTH d) = d).
    { rewrite <- weave_positionalFormat by (unfold cnpjSeparators; intros j Hj;
        cbv delta [Cnpj.LENGTH] in Hj;
        repeat match goal with
               | |- context [Z.eqb ?a ?b] => destruct (Z.eqb_spec a b); cbn [orb]
               end; try reflexivity; lia).
      rewrite strip_weave by (auto using cnpjSeparators_strip).
      apply take_all. unfold Cnpj.LENGTH. lia. }
    unfold Cnpj.isValid. cbn [truthy]. rewrite Ho, (onlyNumbers_allDigits _ Hd).
    rewrite (cnpj_formatted_format _ Hd Hcnpj), (cnpj_isValidFormat_digits _ Hd Hcnpj).
    rewrite (nonempty_of_length d 13 Hcnpj).
    destruct (String.eqb_spec (positionalFormat cnpjSeparators Cnpj.LENGTH d) "") as [F|_];
      [|reflexivity].
    rewrite F in Ho. rewrite <- Ho in Hcnpj. discriminate.
Qed.

Lemma format_keeps_validity_witness :
  Cpf.isValid (VString (Cpf.format (VString "111 444 777 35") {| Cpf.pad := false |}))
  = Cpf.isValid (VString (onlyNumbers "111 444 777 35"))
  /\ Cnpj.isValid (VString (Cnpj.format (VString "11222333/000181")
                                        {| Cnpj.pad := false |}))
     = Cnpj.isValid (VString (onlyNumbers "11222333/000181")).
Proof.
  apply (format_keeps_validity "111 444 777 35" "11222333/000181" false); reflexivity.
Defined.

End FormatKeepsValidity.
